(** * cek-pbn: the domain-probing core of [main.py]

    A shallow embedding of the candidate builder, the content and transport
    classifiers, the per-domain prober and the bounded scheduler, with the
    properties the specification states about them.

    Python [str] values are modelled by [string]: a sequence of 8-bit
    characters read as the code points U+0000..U+00FF.  On that range
    [str.lower] and [str.strip] are the character-wise functions below.
    An [int] is a [Z]; [None] is the [None] of an [option]. *)

From Stdlib Require Import ZArith Strings.String Strings.Ascii List Bool Lia
  DecimalString.
From stdpp Require Import base list strings.

(** ** Python strings *)

Module PyStr.

(** Code points for which [str.isspace] holds (U+0009..U+000D,
    U+001C..U+0020, U+0085, U+00A0): the characters [str.strip] removes. *)
Definition is_space (c : ascii) : bool :=
  let n := nat_of_ascii c in
  (9 <=? n) && (n <=? 13) || (28 <=? n) && (n <=? 32)
  || (n =? 133) || (n =? 160).

(** Code points with a lower-case mapping: A..Z and the capital letters
    U+00C0..U+00DE, the multiplication sign U+00D7 apart. *)
Definition is_upper (c : ascii) : bool :=
  let n := nat_of_ascii c in
  (65 <=? n) && (n <=? 90)
  || (192 <=? n) && (n <=? 222) && negb (n =? 215).

Definition lower_char (c : ascii) : ascii :=
  if is_upper c then ascii_of_nat (nat_of_ascii c + 32) else c.

(** [s.lower()] *)
Fixpoint lower (s : string) : string :=
  match s with
  | EmptyString => EmptyString
  | String c s' => String (lower_char c) (lower s')
  end.

(** [s.lstrip()], [s.rstrip()] and [s.strip()] *)
Fixpoint lstrip (s : string) : string :=
  match s with
  | EmptyString => EmptyString
  | String c s' => if is_space c then lstrip s' else s
  end.

Fixpoint rstrip (s : string) : string :=
  match s with
  | EmptyString => EmptyString
  | String c s' =>
      match rstrip s' with
      | EmptyString => if is_space c then EmptyString else String c EmptyString
      | r => String c r
      end
  end.

Definition strip (s : string) : string := rstrip (lstrip s).

(** [not s]: the truth value of a string is whether it is non-empty. *)
Definition is_empty (s : string) : bool :=
  match s with EmptyString => true | String _ _ => false end.

(** [s.startswith(p)] *)
Definition startswith (p s : string) : bool := String.prefix p s.

(** [s[:n]] and [s[n:]] for a non-negative [n] *)
Fixpoint slice_to (n : nat) (s : string) : string :=
  match n, s with
  | S n', String c s' => String c (slice_to n' s')
  | _, _ => EmptyString
  end.

Fixpoint slice_from (n : nat) (s : string) : string :=
  match n, s with
  | S n', String _ s' => slice_from n' s'
  | _, _ => s
  end.

(** [m in s]: substring test *)
Fixpoint contains (m s : string) : bool :=
  String.prefix m s
  || match s with
     | EmptyString => false
     | String _ s' => contains m s'
     end.

(** [s.split(sep, 1)] for a non-empty [sep]: the text before and after the
    first occurrence of [sep], or [s] alone when there is none. *)
Fixpoint partition (sep s : string) : option (string * string) :=
  if String.prefix sep s then Some (EmptyString, slice_from (String.length sep) s)
  else match s with
       | EmptyString => None
       | String c s' =>
           match partition sep s' with
           | Some (a, b) => Some (String c a, b)
           | None => None
           end
       end.

Definition split1 (sep s : string) : list string :=
  match partition sep s with
  | Some (a, b) => [a; b]
  | None => [s]
  end.

(** [str(n)] and the [{n}] of an f-string, for an [int] *)
Definition of_int (n : Z) : string := NilEmpty.string_of_int (Z.to_int n).

End PyStr.

(** ** Exceptions and results *)

(** An instance of [Exception]; [exc_str e] is what [str(e)] returns. *)
Record Exn := mkExn { exc_str : string }.

Definition IndexError : Exn := mkExn "list index out of range".

(** The outcome of evaluating an expression that may raise. *)
Inductive Result (A : Type) : Type :=
| Returns (a : A)
| Raises (e : Exn).
Arguments Returns {A} a.
Arguments Raises {A} e.

(** [l[i]] on a list: [IndexError] out of range. *)
Definition index {A} (l : list A) (i : nat) : Result A :=
  match l !! i with
  | Some x => Returns x
  | None => Raises IndexError
  end.

(** ** Configuration constants *)

Definition TIMEOUT_SECONDS : Z := 7.
Definition MAX_CONCURRENCY : nat := 20.

Definition PARKING_KEYWORDS : list string :=
  [ "buy this domain"; "this domain is for sale";
    "domain is parked"; "parkingcrew"; "sedo";
    "afternic"; "dan.com"; "expired domain";
    "has expired"; "renew it now" ].

(** ** Candidate builder *)

Definition build_candidate_urls (raw : string) : Result (list string) :=
  let raw := PyStr.strip raw in
  let lower := PyStr.lower raw in
  if PyStr.is_empty raw then Returns []
  else if PyStr.startswith "http://" lower then Returns [raw]
  else if PyStr.startswith "https://" lower then
    match index (PyStr.split1 "://" raw) 1 with
    | Returns tanpa_scheme => Returns [raw; "http://" +:+ tanpa_scheme]
    | Raises e => Raises e
    end
  else Returns ["https://" +:+ raw; "http://" +:+ raw].

(** ** Content classifier *)

(** The double-quote character of the two generator markers. *)
Definition dquote : string := String (ascii_of_nat 34) EmptyString.

Definition WP_MARKERS : list string :=
  [ "wp-content"; "wp-includes"; "wp-json";
    "content=" +:+ dquote +:+ "wordpress";
    "generator" +:+ dquote +:+ " content=" +:+ dquote +:+ "wordpress" ].

(** [any(m in text for m in markers)] *)
Definition any_in (markers : list string) (text : string) : bool :=
  existsb (fun m => PyStr.contains m text) markers.

Definition is_wordpress (html_text : string) : bool :=
  if PyStr.is_empty html_text then false
  else
    let lower := PyStr.lower html_text in
    any_in WP_MARKERS lower.

Definition is_parking_page (html_text : string) : bool :=
  if PyStr.is_empty html_text then false
  else
    let lower := PyStr.lower html_text in
    any_in PARKING_KEYWORDS lower.

(** ** Classifiers *)

(** The tuple [(status, http_status, final_url, notes)] both classifiers
    return; the two middle components are [None] for a transport error. *)
Definition Classification : Type :=
  (string * option Z * option string * string)%type.

(** [str(exc)] where [exc] may be [None], as [last_exc] is before the first
    failed request. *)
Definition str_exc (exc : option Exn) : string :=
  match exc with
  | Some e => exc_str e
  | None => "None"
  end.

Definition classify_transport_error (exc : option Exn) : Classification :=
  let msg := PyStr.lower (str_exc exc) in
  if PyStr.contains "name or service not known" msg
     || PyStr.contains "nxdomain" msg
     || PyStr.contains "not known" msg
  then ("PARKED_ATAU_MUNGKIN_EXPIRED", None, None, "dns_error: " +:+ msg)
  else if PyStr.contains "timed out" msg || PyStr.contains "timeout" msg
  then ("ERROR_TIDAK_BISA_DIBUKA", None, None, "timeout: " +:+ msg)
  else if PyStr.contains "ssl" msg || PyStr.contains "certificate" msg
  then ("ERROR_TIDAK_BISA_DIBUKA", None, None, "ssl_error: " +:+ msg)
  else ("ERROR_TIDAK_BISA_DIBUKA", None, None, msg).

(** What the prober reads of an [httpx.Response]: [resp.status_code],
    [str(resp.url)] and the property [resp.text], whose evaluation may
    raise. *)
Record Response := mkResponse {
  status_code : Z;
  url : string;
  text : Result string
}.

Definition classify_response (resp : Response) (used_scheme : string)
  : Classification :=
  let http_status := status_code resp in
  let final_url := url resp in
  let text_snippet :=
    match text resp with
    | Returns t => PyStr.slice_to 4000 t
    | Raises _ => EmptyString
    end in
  if (200 <=? http_status)%Z && (http_status <? 300)%Z then
    if is_wordpress text_snippet then
      ("AKTIF_WORDPRESS", Some http_status, Some final_url,
       "wp_markers_found (" +:+ used_scheme +:+ ")")
    else if is_parking_page text_snippet then
      ("PARKED_ATAU_MUNGKIN_EXPIRED", Some http_status, Some final_url,
       "parking_keywords_found (" +:+ used_scheme +:+ ")")
    else
      ("AKTIF_NON_WORDPRESS", Some http_status, Some final_url,
       "no_wp_markers (" +:+ used_scheme +:+ ")")
  else if (300 <=? http_status)%Z && (http_status <? 400)%Z then
    ("AKTIF_NON_WORDPRESS", Some http_status, Some final_url,
     "3xx_status (" +:+ used_scheme +:+ ")")
  else if (400 <=? http_status)%Z && (http_status <? 600)%Z then
    if is_parking_page text_snippet then
      ("PARKED_ATAU_MUNGKIN_EXPIRED", Some http_status, Some final_url,
       "http_" +:+ PyStr.of_int http_status +:+ "_parking ("
         +:+ used_scheme +:+ ")")
    else
      ("ERROR_TIDAK_BISA_DIBUKA", Some http_status, Some final_url,
       "http_" +:+ PyStr.of_int http_status +:+ " (" +:+ used_scheme +:+ ")")
  else
    ("ERROR_TIDAK_BISA_DIBUKA", Some http_status, Some final_url,
     "unexpected_status (" +:+ used_scheme +:+ ")").

(** ** Coroutines

    An [async def] whose only suspension points are [await client.get(...)]:
    it returns, raises, or awaits one GET and resumes with what the client
    gives back, a response or a raised exception. *)

Record Request := mkRequest {
  req_url : string;
  follow_redirects : bool;
  timeout : Z;
  headers : list (string * string)
}.

Inductive Coro (A : Type) : Type :=
| Return (a : A)
| Raise (e : Exn)
| AwaitGet (req : Request) (k : Result Response -> Coro A).
Arguments Return {A} a.
Arguments Raise {A} e.
Arguments AwaitGet {A} req k.

Fixpoint bind {A B} (c : Coro A) (f : A -> Coro B) : Coro B :=
  match c with
  | Return a => f a
  | Raise e => Raise e
  | AwaitGet req k => AwaitGet req (fun r => bind (k r) f)
  end.

Notation "x <- c ;; f" := (bind c (fun x => f))
  (at level 100, c at next level, right associativity).

(** Running a coroutine to completion against a scripted client: the
    replies are consumed in order, one per request.  [issued] lists the
    requests made, [outcome] is [None] when the script ran out while the
    coroutine was still waiting, and [unread] is what is left of the script. *)
Record Run (A : Type) := mkRun {
  issued : list Request;
  outcome : option (Result A);
  unread : list (Result Response)
}.
Arguments mkRun {A} issued outcome unread.
Arguments issued {A} r.
Arguments outcome {A} r.
Arguments unread {A} r.

Fixpoint run_coro {A} (c : Coro A) (replies : list (Result Response)) : Run A :=
  match c with
  | Return a => mkRun [] (Some (Returns a)) replies
  | Raise e => mkRun [] (Some (Raises e)) replies
  | AwaitGet req k =>
      match replies with
      | [] => mkRun [req] None []
      | r :: replies' =>
          let run := run_coro (k r) replies' in
          mkRun (req :: issued run) (outcome run) (unread run)
      end
  end.

(** ** Domain prober *)

(** The dict [check_one_domain] returns. *)
Record Outcome := mkOutcome {
  domain : string;
  status : string;
  http_status : option Z;
  final_url : option string;
  notes : string
}.

Definition outcome_of (domain : string) (c : Classification) : Outcome :=
  let '(status, http_status, final_url, notes) := c in
  mkOutcome domain status http_status final_url notes.

(** The arguments of the one [client.get] call. *)
Definition get_request (url : string) : Request :=
  mkRequest url true TIMEOUT_SECONDS
            [("User-Agent", "Mozilla/5.0 (PBN-Checker)")].

Definition used_scheme_of (url : string) : string :=
  if PyStr.startswith "https://" (PyStr.lower url) then "https" else "http".

(** How the [for url in urls] loop is left: by the [return] in its body, or
    by running out of candidates with [last_exc] as it then stands. *)
Inductive LoopExit : Type :=
| Returned (o : Outcome)
| Exhausted (last_exc : option Exn).

Fixpoint for_url_in (domain : string) (urls : list string)
    (last_exc : option Exn) : Coro LoopExit :=
  match urls with
  | [] => Return (Exhausted last_exc)
  | url :: urls' =>
      let used_scheme := used_scheme_of url in
      AwaitGet (get_request url) (fun r =>
        match r with
        | Returns resp =>
            Return (Returned
                      (outcome_of domain (classify_response resp used_scheme)))
        | Raises exc => for_url_in domain urls' (Some exc)
        end)
  end.

(** The code after the loop: reached only when the loop ran out of
    candidates. *)
Definition after_loop (domain : string) (x : LoopExit)
  : Coro (option Outcome) :=
  match x with
  | Returned o => Return (Some o)
  | Exhausted last_exc =>
      Return (Some (outcome_of domain (classify_transport_error last_exc)))
  end.

Definition check_one_domain (domain : string) : Coro (option Outcome) :=
  let domain := PyStr.strip domain in
  if PyStr.is_empty domain || PyStr.startswith "#" domain then Return None
  else
    match build_candidate_urls domain with
    | Raises e => Raise e
    | Returns urls =>
        x <- for_url_in domain urls None ;;
        after_loop domain x
    end.

(** ** Probe scheduler

    [run] starts one [worker] per non-blank line; a worker enters
    [async with sem], runs [check_one_domain] and leaves the block, which
    releases the semaphore whether the body returned or raised.  The event
    loop interleaves the workers at their suspension points; the model is a
    transition system whose actions are those interleaving points. *)

Inductive Phase : Type :=
| Waiting (body : Coro (option Outcome))
| Holding (body : Coro (option Outcome))
| Finished (r : Result (option Outcome)).

(** A worker: the line [d] it was created for, its phase, and the requests
    its [client.get] calls have had answered so far. *)
Record Worker := mkWorker {
  line : string;
  phase : Phase;
  sent : list Request
}.

Record Sched := mkSched {
  sem_value : nat;
  tasks : list Worker;
  completed : list (Result (option Outcome));
  results : list Outcome;
  failed : option Exn
}.

Inductive Action : Type :=
| Acquire (i : nat)
| Deliver (i : nat) (r : Result Response)
| Exit (i : nat)
| Collect.

Definition set_task (i : nat) (w : Worker) (s : Sched) : Sched :=
  mkSched (sem_value s) (<[i := w]> (tasks s)) (completed s) (results s)
          (failed s).

(** A worker that leaves [async with sem]: the slot goes back and the task
    is done, in completion order. *)
Definition leave (i : nat) (w : Worker) (r : Result (option Outcome))
    (s : Sched) : Sched :=
  mkSched (S (sem_value s))
          (<[i := mkWorker (line w) (Finished r) (sent w)]> (tasks s))
          (completed s ++ [r]) (results s) (failed s).

(** One turn of [for coro in asyncio.as_completed(tasks)]: [res = await coro]
    raises what the task raised, which ends [run], or gives its result, which
    is appended when it is not [None]. *)
Definition collected (r : Result (option Outcome))
    (q : list (Result (option Outcome))) (s : Sched) : Sched :=
  match r with
  | Returns (Some res) =>
      mkSched (sem_value s) (tasks s) q (results s ++ [res]) None
  | Returns None => mkSched (sem_value s) (tasks s) q (results s) None
  | Raises e => mkSched (sem_value s) (tasks s) q (results s) (Some e)
  end.

Definition step (a : Action) (s : Sched) : option Sched :=
  match failed s with
  | Some _ => None
  | None =>
      match a with
      | Acquire i =>
          match tasks s !! i, sem_value s with
          | Some (mkWorker d (Waiting body) reqs), S v =>
              Some (mkSched v (<[i := mkWorker d (Holding body) reqs]> (tasks s))
                            (completed s) (results s) (failed s))
          | _, _ => None
          end
      | Deliver i r =>
          match tasks s !! i with
          | Some (mkWorker d (Holding (AwaitGet req k)) reqs) =>
              Some (set_task i (mkWorker d (Holding (k r)) (reqs ++ [req])) s)
          | _ => None
          end
      | Exit i =>
          match tasks s !! i with
          | Some (mkWorker d (Holding (Return res)) reqs as w) =>
              Some (leave i w (Returns res) s)
          | Some (mkWorker d (Holding (Raise e)) reqs as w) =>
              Some (leave i w (Raises e) s)
          | _ => None
          end
      | Collect =>
          match completed s with
          | [] => None
          | r :: q => Some (collected r q s)
          end
      end
  end.

(** The same transitions as a relation, one rule per case of [step]. *)
Inductive Step (s : Sched) : Action -> Sched -> Prop :=
| StepAcquire i d body reqs v :
    failed s = None ->
    tasks s !! i = Some (mkWorker d (Waiting body) reqs) ->
    sem_value s = S v ->
    Step s (Acquire i)
         (mkSched v (<[i := mkWorker d (Holding body) reqs]> (tasks s))
                  (completed s) (results s) (failed s))
| StepDeliver i r d req k reqs :
    failed s = None ->
    tasks s !! i = Some (mkWorker d (Holding (AwaitGet req k)) reqs) ->
    Step s (Deliver i r)
         (set_task i (mkWorker d (Holding (k r)) (reqs ++ [req])) s)
| StepReturn i d res reqs :
    failed s = None ->
    tasks s !! i = Some (mkWorker d (Holding (Return res)) reqs) ->
    Step s (Exit i)
         (leave i (mkWorker d (Holding (Return res)) reqs) (Returns res) s)
| StepRaise i d e reqs :
    failed s = None ->
    tasks s !! i = Some (mkWorker d (Holding (Raise e)) reqs) ->
    Step s (Exit i)
         (leave i (mkWorker d (Holding (Raise e)) reqs) (Raises e) s)
| StepCollect r q :
    failed s = None ->
    completed s = r :: q ->
    Step s Collect (collected r q s).

Fixpoint run_actions (acts : list Action) (s : Sched) : option Sched :=
  match acts with
  | [] => Some s
  | a :: acts' =>
      match step a s with
      | Some s' => run_actions acts' s'
      | None => None
      end
  end.

(** [sem = asyncio.Semaphore(K)], [results = []] and one task per entry of
    [domains]. *)
Definition init_sched (K : nat) (worker : string -> Coro (option Outcome))
    (domains : list string) : Sched :=
  mkSched K (map (fun d => mkWorker d (Waiting (worker d)) []) domains)
          [] [] None.

(** [[line.strip() for line in f if line.strip()]] *)
Definition read_domains (f : list string) : list string :=
  map PyStr.strip
      (List.filter (fun line => negb (PyStr.is_empty (PyStr.strip line))) f).

Definition run (f : list string) : Sched :=
  init_sched MAX_CONCURRENCY check_one_domain (read_domains f).

Definition is_holding (w : Worker) : bool :=
  match phase w with Holding _ => true | _ => false end.

Definition is_finished (w : Worker) : bool :=
  match phase w with Finished _ => true | _ => false end.

(** The workers inside [async with sem]. *)
Definition holders (s : Sched) : list Worker :=
  List.filter is_holding (tasks s).

(** The run is over: every task is done and collected, nothing raised. *)
Definition final (s : Sched) : Prop :=
  Forall (fun w => is_finished w = true) (tasks s)
  /\ completed s = [] /\ failed s = None.

(** ** Vocabulary of the specification *)

(** A case-insensitive occurrence of the lower-case pattern [m] in [s]:
    some substring of [s] reads [m] once lower-cased. *)
Definition occurs_in (m s : string) : Prop :=
  exists a x b, s = a +:+ x +:+ b /\ PyStr.lower x = m.

(** A signature of the content classifier: one of the markers occurs,
    case-insensitively, in the first 4000 characters of the body. *)
Definition has_signature (markers : list string) (body : string) : Prop :=
  exists m, In m markers /\ occurs_in m (PyStr.slice_to 4000 body).

(** The body text the classifier gets to see: empty when it cannot be read. *)
Definition body_of (resp : Response) : string :=
  match text resp with
  | Returns t => t
  | Raises _ => EmptyString
  end.

(** A line that is ignored: empty once trimmed, or a comment. *)
Definition skipped (line : string) : bool :=
  PyStr.is_empty (PyStr.strip line)
  || PyStr.startswith "#" (PyStr.strip line).

(** The first character, if any, is not white space. *)
Definition tight_left (s : string) : Prop :=
  match s with
  | EmptyString => True
  | String c _ => PyStr.is_space c = false
  end.

(** The message patterns of the transport-error heuristics. *)
Definition DNS_PATTERNS : list string :=
  ["name or service not known"; "nxdomain"; "not known"].
Definition TIMEOUT_PATTERNS : list string := ["timed out"; "timeout"].
Definition SSL_PATTERNS : list string := ["ssl"; "certificate"].

(** The message matches a heuristic: one of its patterns occurs in it,
    case-insensitively. *)
Definition matches (patterns : list string) (msg : string) : Prop :=
  exists m, In m patterns /\ occurs_in m msg.

(** The lines that are reported: one outcome is due for each. *)
Definition reported (f : list string) : list string :=
  map PyStr.strip (List.filter (fun line => negb (skipped line)) f).

Definition map_result {A B} (g : A -> B) (r : Result A) : Result B :=
  match r with
  | Returns a => Returns (g a)
  | Raises e => Raises e
  end.

(** What [after_loop] returns. *)
Definition final_outcome (domain : string) (x : LoopExit) : option Outcome :=
  match x with
  | Returned o => Some o
  | Exhausted last_exc =>
      Some (outcome_of domain (classify_transport_error last_exc))
  end.

(** The candidate URLs of a line, none for a skipped one. *)
Definition candidates (d : string) : list string :=
  if skipped d then []
  else match build_candidate_urls (PyStr.strip d) with
       | Returns urls => urls
       | Raises _ => []
       end.

(** The domain an outcome is due for, if any. *)
Definition expected (d : string) : list string :=
  if skipped d then [] else [PyStr.strip d].

(** What a result adds to the report. *)
Definition yield (r : Result (option Outcome)) : list string :=
  match r with
  | Returns (Some o) => [domain o]
  | _ => []
  end.

(** A coroutine that is some way into probing line [d]: it requests the
    remaining candidates [urls] in order, never raises, and returns what is
    due for [d]. *)
Fixpoint probing (d : string) (urls : list string)
    (c : Coro (option Outcome)) {struct c} : Prop :=
  match c with
  | Return res => yield (Returns res) = expected d
  | Raise _ => False
  | AwaitGet req k =>
      match urls with
      | [] => False
      | u :: urls' => req = get_request u /\ forall r, probing d urls' (k r)
      end
  end.

(** A worker of [run]: its requests so far are the first [n] candidates of
    its line, and it goes on with the others. *)
Definition worker_ok (w : Worker) : Prop :=
  exists n,
    sent w = map get_request (take n (candidates (line w)))
    /\ match phase w with
       | Waiting c | Holding c => probing (line w) (drop n (candidates (line w))) c
       | Finished r => yield r = expected (line w) /\ exists res, r = Returns res
       end.

(** The domains of the lines whose worker has not finished yet. *)
Definition pending (ws : list Worker) : list string :=
  concat (map (fun w => if is_finished w then [] else expected (line w)) ws).

(** The steps a worker has left, at most; the steps a run has left. *)
Definition weight (w : Worker) : nat :=
  match phase w with
  | Waiting _ => 3 + length (candidates (line w))
  | Holding _ => 2 + (length (candidates (line w)) - length (sent w))
  | Finished _ => 0
  end.

Definition measure (s : Sched) : nat :=
  sum_list (map weight (tasks s)) + length (completed s).

(** What holds of every state of a run over [domains]. *)
Record run_inv (domains : list string) (s : Sched) : Prop := mkRunInv {
  inv_lines : map line (tasks s) = domains;
  inv_workers : Forall worker_ok (tasks s);
  inv_completed : Forall (fun r => exists res, r = Returns res) (completed s);
  inv_failed : failed s = None;
  inv_report :
    map domain (results s) ++ concat (map yield (completed s))
      ++ pending (tasks s)
    ≡ₚ concat (map expected domains)
}.

(** ** The summary of [run] and further vocabulary *)

(** [Counter(iterable)]: each element bumps its count, [mapping.get(elem, 0)
    + 1]; a dict keeps its keys in the order they were first inserted. *)
Fixpoint count_element (mapping : list (string * nat)) (elem : string)
  : list (string * nat) :=
  match mapping with
  | [] => [(elem, 1)]
  | (k, n) :: rest =>
      if String.eqb k elem then (k, S n) :: rest
      else (k, n) :: count_element rest elem
  end.

Definition Counter (iterable : list string) : list (string * nat) :=
  fold_left count_element iterable [].

(** [Counter(r["status"] for r in results)] *)
Definition summary (results : list Outcome) : list (string * nat) :=
  Counter (map status results).

(** [mapping.get(k, 0)] *)
Fixpoint get_count (mapping : list (string * nat)) (k : string) : nat :=
  match mapping with
  | [] => 0
  | (k', n) :: rest => if String.eqb k' k then n else get_count rest k
  end.

(** The four values of [status]. *)
Definition TAXONOMY : list string :=
  ["AKTIF_WORDPRESS"; "AKTIF_NON_WORDPRESS"; "PARKED_ATAU_MUNGKIN_EXPIRED";
   "ERROR_TIDAK_BISA_DIBUKA"].

(** What a well-formed outcome looks like: a status of the taxonomy, a
    trimmed domain that is not a skipped line, and [http_status] and
    [final_url] present or absent together. *)
Definition sound_outcome (o : Outcome) : Prop :=
  In (status o) TAXONOMY
  /\ PyStr.strip (domain o) = domain o /\ skipped (domain o) = false
  /\ (http_status o = None <-> final_url o = None).

(** Every outcome the coroutine can return satisfies [P], and it never
    raises. *)
Fixpoint returns_all (P : Outcome -> Prop) (c : Coro (option Outcome))
  {struct c} : Prop :=
  match c with
  | Return (Some o) => P o
  | Return None => True
  | Raise _ => False
  | AwaitGet _ k => forall r, returns_all P (k r)
  end.

(** The outcomes of a state: those returned by finished workers, those
    queued for the main loop and those collected. *)
Definition outcomes_all (P : Outcome -> Prop) (s : Sched) : Prop :=
  Forall (fun w => match phase w with
                   | Waiting c | Holding c => returns_all P c
                   | Finished (Returns (Some o)) => P o
                   | Finished (Returns None) => True
                   | Finished (Raises _) => False
                   end) (tasks s)
  /\ Forall (fun r => match r with
                      | Returns (Some o) => P o
                      | Returns None => True
                      | Raises _ => False
                      end) (completed s)
  /\ Forall P (results s).

(** The outcome a result carries, if any. *)
Definition carried (r : Result (option Outcome)) : list Outcome :=
  match r with
  | Returns (Some o) => [o]
  | _ => []
  end.

(** The outcome of the worker that has just left [async with sem], when
    the step taken was its exit and it returned one. *)
Definition step_log (a : Action) (s' : Sched) : list Outcome :=
  match a with
  | Exit i =>
      match tasks s' !! i with
      | Some (mkWorker _ (Finished r) _) => carried r
      | _ => []
      end
  | _ => []
  end.

(** The outcomes of the workers in the order they leave [async with sem]
    along a run. *)
Fixpoint exit_log (acts : list Action) (s : Sched) : list Outcome :=
  match acts with
  | [] => []
  | a :: acts' =>
      match step a s with
      | None => []
      | Some s' => step_log a s' ++ exit_log acts' s'
      end
  end.

(** * Properties *)

(** ** Characters and strings *)

Module PyStrFacts.
Import PyStr.

#[local] Arguments String.append !s1 s2 : simpl nomatch.

Ltac each_char c := destruct c as [[] [] [] [] [] [] [] []].

Lemma is_space_lower_char c : is_space (lower_char c) = is_space c.
Proof. each_char c; reflexivity. Qed.

Lemma lower_char_idem c : lower_char (lower_char c) = lower_char c.
Proof. each_char c; reflexivity. Qed.

Lemma lower_char_colon c : lower_char c = ":"%char -> c = ":"%char.
Proof. each_char c; vm_compute; intros H; try reflexivity; discriminate H. Qed.

Lemma lower_char_slash c : lower_char c = "/"%char -> c = "/"%char.
Proof. each_char c; vm_compute; intros H; try reflexivity; discriminate H. Qed.

Lemma is_empty_true s : is_empty s = true <-> s = EmptyString.
Proof. destruct s; simpl; split; congruence. Qed.

Lemma lower_app a b : lower (a +:+ b) = lower a +:+ lower b.
Proof. induction a; simpl; congruence. Qed.

Lemma lower_idem s : lower (lower s) = lower s.
Proof. induction s; simpl; [|rewrite lower_char_idem]; congruence. Qed.

(** A split of [lower s] comes from a split of [s]. *)
Lemma lower_split s p q :
  lower s = p +:+ q ->
  exists s1 s2, s = s1 +:+ s2 /\ lower s1 = p /\ lower s2 = q.
Proof.
  revert s; induction p as [|c p IH]; intros s H; simpl in H.
  - exists EmptyString, s. auto.
  - destruct s as [|d s]; simpl in H; [discriminate|].
    injection H as Hc Hs. destruct (IH _ Hs) as (s1 & s2 & -> & H1 & H2).
    exists (String d s1), s2. simpl. rewrite Hc, H1. auto.
Qed.

Lemma prefix_app p s :
  String.prefix p s = true <-> exists r, s = p +:+ r.
Proof.
  revert s; induction p as [|a p IH]; intros [|b s]; simpl.
  - split; eauto.
  - split; eauto.
  - split; [discriminate | intros [r Hr]; discriminate].
  - destruct (ascii_dec a b) as [->|Hab].
    + rewrite IH. split; intros [r Hr]; exists r; simpl in *; congruence.
    + split; [discriminate | intros [r Hr]; simpl in Hr; congruence].
Qed.

Lemma contains_nil m :
  contains m EmptyString = String.prefix m EmptyString || false.
Proof. reflexivity. Qed.

Lemma contains_cons m c s :
  contains m (String c s) = String.prefix m (String c s) || contains m s.
Proof. reflexivity. Qed.

Lemma contains_app m s :
  contains m s = true <-> exists a b, s = a +:+ m +:+ b.
Proof.
  induction s as [|c s IH];
    [rewrite contains_nil | rewrite contains_cons];
    rewrite orb_true_iff, prefix_app.
  - split.
    + intros [[r Hr]|]; [|discriminate]. exists EmptyString, r. exact Hr.
    + intros ([|d a] & b & H); [|discriminate]. left. eauto.
  - rewrite IH. split.
    + intros [[r Hr]|(a & b & ->)].
      * exists EmptyString, r. exact Hr.
      * exists (String c a), b. reflexivity.
    + intros ([|d a] & b & H); simpl in H.
      * left. eauto.
      * right. exists a, b. congruence.
Qed.

(** The substring test on the lower-cased text is the case-insensitive
    occurrence of the specification. *)
Lemma contains_lower m s : contains m (lower s) = true <-> occurs_in m s.
Proof.
  rewrite contains_app. split.
  - intros (a' & b' & H).
    apply lower_split in H as (a & r & -> & <- & H).
    apply lower_split in H as (x & b & -> & <- & <-).
    exists a, x, b. auto.
  - intros (a & x & b & -> & <-). exists (lower a), (lower b).
    now rewrite !lower_app.
Qed.

(** *** Trimming *)

Lemma rstrip_cons c s :
  rstrip (String c s) =
  match rstrip s with
  | EmptyString => if is_space c then EmptyString else String c EmptyString
  | r => String c r
  end.
Proof. reflexivity. Qed.

Lemma rstrip_idem s : rstrip (rstrip s) = rstrip s.
Proof.
  induction s as [|c s IH]; [reflexivity|]. rewrite rstrip_cons.
  destruct (rstrip s) as [|d r] eqn:E.
  - destruct (is_space c) eqn:Ec; [reflexivity|].
    rewrite rstrip_cons. simpl. now rewrite Ec.
  - rewrite rstrip_cons, IH. reflexivity.
Qed.

Lemma lstrip_tight s : tight_left (lstrip s).
Proof.
  induction s as [|c s IH]; simpl; [exact I|].
  destruct (is_space c) eqn:E; [exact IH | exact E].
Qed.

Lemma lstrip_of_tight s : tight_left s -> lstrip s = s.
Proof. destruct s as [|c s]; simpl; [reflexivity|]. now intros ->. Qed.

Lemma rstrip_tight s : tight_left s -> tight_left (rstrip s).
Proof.
  destruct s as [|c s]; [exact id|]. simpl tight_left at 1. intros Hc.
  rewrite rstrip_cons. destruct (rstrip s); [rewrite Hc|]; exact Hc.
Qed.

Lemma strip_tight s : tight_left (strip s).
Proof. apply rstrip_tight, lstrip_tight. Qed.

Lemma strip_idem s : strip (strip s) = strip s.
Proof.
  unfold strip at 1. rewrite (lstrip_of_tight _ (strip_tight s)).
  apply rstrip_idem.
Qed.

Lemma lower_lstrip s : lower (lstrip s) = lstrip (lower s).
Proof.
  induction s as [|c s IH]; simpl; [reflexivity|].
  rewrite is_space_lower_char. now destruct (is_space c).
Qed.

Lemma lower_rstrip s : lower (rstrip s) = rstrip (lower s).
Proof.
  induction s as [|c s IH]; [reflexivity|].
  simpl lower at 2. rewrite !rstrip_cons, <- IH, is_space_lower_char.
  destruct (rstrip s); simpl; [now destruct (is_space c) | reflexivity].
Qed.

Lemma lower_strip s : lower (strip s) = strip (lower s).
Proof. unfold strip. now rewrite lower_rstrip, lower_lstrip. Qed.

(** A lower-cased, trimmed string is left alone by both operations. *)
Lemma strip_lower_strip s : strip (lower (strip s)) = lower (strip s).
Proof. now rewrite <- lower_strip, strip_idem. Qed.

(** A comment mark is not white space: it survives trimming. *)
Lemma strip_hash s : startswith "#" s = true -> startswith "#" (strip s) = true.
Proof.
  unfold startswith. intros H. apply prefix_app in H as [r ->].
  unfold strip. change (lstrip ("#" +:+ r)) with (String "#" r).
  rewrite rstrip_cons. destruct (rstrip r); reflexivity.
Qed.

Lemma slice_to_from n s : slice_to n s +:+ slice_from n s = s.
Proof.
  revert s; induction n as [|n IH]; intros [|c s]; simpl; try reflexivity.
  now rewrite IH.
Qed.

(** *** The scheme prefixes *)

Lemma http_not_https s :
  startswith "https://" s = true -> startswith "http://" s = false.
Proof.
  unfold startswith. intros H. apply prefix_app in H as [r ->]. reflexivity.
Qed.

Lemma scheme_not_empty p c s :
  startswith (String c p) (lower s) = true -> is_empty s = false.
Proof. unfold startswith. destruct s; simpl; [discriminate | reflexivity]. Qed.

Lemma prefix_head_ne a p b s :
  a <> b -> String.prefix (String a p) (String b s) = false.
Proof.
  intros H. change (String.prefix (String a p) (String b s))
    with (if ascii_dec a b then String.prefix p s else false).
  destruct (ascii_dec a b); congruence.
Qed.

Lemma partition_cons sep c s :
  partition sep (String c s) =
  if String.prefix sep (String c s)
  then Some (EmptyString, slice_from (String.length sep) (String c s))
  else match partition sep s with
       | Some (a, b) => Some (String c a, b)
       | None => None
       end.
Proof. reflexivity. Qed.

(** With an [https://] prefix in any case, [split("://", 1)[1]] is the text
    after the first eight characters. *)
Lemma split_https t :
  startswith "https://" (lower t) = true ->
  index (split1 "://" t) 1 = Returns (slice_from 8 t)
  /\ lower (slice_to 8 t) = "https://".
Proof.
  unfold startswith. intros H. apply prefix_app in H as [r Hr].
  destruct t as [|c1 [|c2 [|c3 [|c4 [|c5 [|c6 [|c7 [|c8 t]]]]]]]];
    try discriminate Hr.
  simpl in Hr. injection Hr as H1 H2 H3 H4 H5 H6 H7 H8 _.
  apply lower_char_colon in H6. apply lower_char_slash in H7, H8. subst c6 c7 c8.
  split; [|simpl; rewrite H1, H2, H3, H4, H5; reflexivity].
  assert (Hhere : String.prefix "://" (String ":" (String "/" (String "/" t)))
                  = true) by (apply prefix_app; exists t; reflexivity).
  unfold split1.
  do 5 (rewrite partition_cons, prefix_head_ne by (intros <-; discriminate)).
  rewrite partition_cons, Hhere. reflexivity.
Qed.

End PyStrFacts.

(** ** Candidate builder *)

Import PyStr PyStrFacts.

Lemma build_empty raw :
  strip raw = EmptyString -> build_candidate_urls raw = Returns [].
Proof. unfold build_candidate_urls. now intros ->. Qed.

Lemma build_http raw :
  startswith "http://" (lower (strip raw)) = true ->
  build_candidate_urls raw = Returns [strip raw].
Proof.
  intros H. unfold build_candidate_urls.
  now rewrite (scheme_not_empty _ _ _ H), H.
Qed.

Lemma build_https raw :
  startswith "https://" (lower (strip raw)) = true ->
  build_candidate_urls raw
  = Returns [strip raw; "http://" +:+ slice_from 8 (strip raw)].
Proof.
  intros H. unfold build_candidate_urls.
  rewrite (scheme_not_empty _ _ _ H), (http_not_https _ H), H.
  now destruct (split_https _ H) as [-> _].
Qed.

Lemma build_bare raw :
  strip raw <> EmptyString ->
  startswith "http://" (lower (strip raw)) = false ->
  startswith "https://" (lower (strip raw)) = false ->
  build_candidate_urls raw
  = Returns ["https://" +:+ strip raw; "http://" +:+ strip raw].
Proof.
  intros Hne H1 H2. unfold build_candidate_urls. rewrite H1, H2.
  destruct (is_empty (strip raw)) eqn:E; [|reflexivity].
  now apply is_empty_true in E.
Qed.

(** The builder never raises: the [IndexError] of [split(...)[1]] cannot
    happen behind the [https://] test. *)
Lemma build_total raw : exists urls, build_candidate_urls raw = Returns urls.
Proof.
  destruct (is_empty (strip raw)) eqn:E.
  - apply is_empty_true in E. rewrite (build_empty _ E). eauto.
  - destruct (startswith "http://" (lower (strip raw))) eqn:H1.
    { rewrite (build_http _ H1). eauto. }
    destruct (startswith "https://" (lower (strip raw))) eqn:H2.
    { rewrite (build_https _ H2). eauto. }
    rewrite build_bare; eauto. intros H. now rewrite H in E.
Qed.

(** One or two candidates for an input that is not blank. *)
Lemma build_length raw urls :
  strip raw <> EmptyString ->
  build_candidate_urls raw = Returns urls ->
  length urls = 1 \/ length urls = 2.
Proof.
  intros Hne. destruct (startswith "http://" (lower (strip raw))) eqn:H1.
  { rewrite (build_http _ H1). intros [= <-]. now left. }
  destruct (startswith "https://" (lower (strip raw))) eqn:H2.
  { rewrite (build_https _ H2). intros [= <-]. now right. }
  rewrite (build_bare _ Hne H1 H2). intros [= <-]. now right.
Qed.

(** The same cases for an input that trimming and lower-casing leave as it
    is: it is its own trimmed and lower-cased form. *)
Lemma build_normalised x :
  strip x = x -> lower x = x ->
  (x = EmptyString -> build_candidate_urls x = Returns [])
  /\ (startswith "http://" x = true -> build_candidate_urls x = Returns [x])
  /\ (startswith "https://" x = true ->
      build_candidate_urls x = Returns [x; "http://" +:+ slice_from 8 x])
  /\ (x <> EmptyString -> startswith "http://" x = false ->
      startswith "https://" x = false ->
      build_candidate_urls x = Returns ["https://" +:+ x; "http://" +:+ x]).
Proof.
  intros Hs Hl.
  pose proof (build_empty x) as B1. pose proof (build_http x) as B2.
  pose proof (build_https x) as B3. pose proof (build_bare x) as B4.
  rewrite Hs in B1, B2, B3, B4. rewrite Hl in B2, B3, B4. auto.
Qed.

(** C2. The candidate builder decides on the trimmed, lower-cased input [l]
    and answers with the trimmed input [t]: nothing when [t] is empty,
    [[t]] alone behind [http://], [[t; http://<rest>]] behind [https://]
    (the rest being [t] without its eight-character scheme prefix), and
    [[https://t; http://t]] when there is neither prefix.  Applied to [l]
    itself, which trimming and lower-casing leave unchanged, it returns
    these sequences with [l] as the original. *)
Theorem build_candidate_urls_cases (raw : string) :
  let t := strip raw in
  let l := lower t in
  ((t = EmptyString -> build_candidate_urls raw = Returns [])
   /\ (startswith "http://" l = true -> build_candidate_urls raw = Returns [t])
   /\ (startswith "https://" l = true ->
       build_candidate_urls raw = Returns [t; "http://" +:+ slice_from 8 t]
       /\ t = slice_to 8 t +:+ slice_from 8 t
       /\ lower (slice_to 8 t) = "https://")
   /\ (t <> EmptyString -> startswith "http://" l = false ->
       startswith "https://" l = false ->
       build_candidate_urls raw = Returns ["https://" +:+ t; "http://" +:+ t]))
  /\ (strip l = l /\ lower l = l
      /\ (l = EmptyString -> build_candidate_urls l = Returns [])
      /\ (startswith "http://" l = true -> build_candidate_urls l = Returns [l])
      /\ (startswith "https://" l = true ->
          build_candidate_urls l = Returns [l; "http://" +:+ slice_from 8 l])
      /\ (l <> EmptyString -> startswith "http://" l = false ->
          startswith "https://" l = false ->
          build_candidate_urls l
          = Returns ["https://" +:+ l; "http://" +:+ l])).
Proof.
  cbv zeta. split.
  - split; [apply build_empty|]. split; [apply build_http|].
    split; [|apply build_bare].
    intros H. split; [now apply build_https|].
    split; [now rewrite slice_to_from | apply (split_https _ H)].
  - split; [apply strip_lower_strip|]. split; [apply lower_idem|].
    apply build_normalised; [apply strip_lower_strip | apply lower_idem].
Qed.

Lemma build_candidate_urls_cases_witness :
  build_candidate_urls " HTTPS://Blog.Example.org/x "
  = Returns ["HTTPS://Blog.Example.org/x"; "http://Blog.Example.org/x"]
  /\ build_candidate_urls "http://a.test" = Returns ["http://a.test"]
  /\ build_candidate_urls "b.test" = Returns ["https://b.test"; "http://b.test"]
  /\ build_candidate_urls "   " = Returns [].
Proof.
  split; [|split; [|split]].
  - apply (proj1 (build_candidate_urls_cases " HTTPS://Blog.Example.org/x ")).
    reflexivity.
  - apply (proj1 (build_candidate_urls_cases "http://a.test")). reflexivity.
  - apply (proj1 (build_candidate_urls_cases "b.test"));
      [discriminate | reflexivity | reflexivity].
  - apply (proj1 (build_candidate_urls_cases "   ")). reflexivity.
Defined.

(** ** Content classifier *)

Lemma occurs_in_empty m : occurs_in m EmptyString -> m = EmptyString.
Proof.
  intros ([|c a] & [|d x] & b & H & <-); simpl in H; try discriminate H.
  reflexivity.
Qed.

Lemma any_in_lower markers s :
  any_in markers (lower s) = true <-> exists m, In m markers /\ occurs_in m s.
Proof.
  unfold any_in. rewrite existsb_exists.
  split; intros (m & Hm & H); exists m; split; auto; now apply contains_lower.
Qed.

(** Both predicates are the specification's signature on what they are
    given; the test for an empty text changes nothing, as no marker is
    empty. *)
Lemma signature_test markers s :
  ~ In EmptyString markers ->
  (if is_empty s then false else any_in markers (lower s)) = true
  <-> exists m, In m markers /\ occurs_in m s.
Proof.
  intros Hne. destruct s as [|c s]; [|apply any_in_lower].
  split; [discriminate|]. intros (m & Hm & H).
  apply occurs_in_empty in H. now subst m.
Qed.

Lemma is_wordpress_spec body :
  is_wordpress (slice_to 4000 body) = true <-> has_signature WP_MARKERS body.
Proof.
  apply signature_test. cbv. intuition discriminate.
Qed.

Lemma is_parking_page_spec body :
  is_parking_page (slice_to 4000 body) = true
  <-> has_signature PARKING_KEYWORDS body.
Proof.
  apply signature_test. cbv. intuition discriminate.
Qed.

Lemma is_parking_page_false body :
  is_parking_page (slice_to 4000 body) = false
  <-> ~ has_signature PARKING_KEYWORDS body.
Proof.
  rewrite <- is_parking_page_spec.
  destruct (is_parking_page (slice_to 4000 body)); split; congruence.
Qed.

(** ** Response classifier *)

Lemma in_range lo hi x :
  (lo <= x < hi)%Z -> (lo <=? x)%Z && (x <? hi)%Z = true.
Proof. intros. apply andb_true_iff. split; [apply Z.leb_le | apply Z.ltb_lt]; lia. Qed.

Lemma above_range lo hi x :
  (hi <= x)%Z -> (lo <=? x)%Z && (x <? hi)%Z = false.
Proof. intros. apply andb_false_iff. right. apply Z.ltb_ge. lia. Qed.

(** The snippet the classifier inspects is the first 4000 characters of the
    body, the empty text standing in for a body that cannot be read. *)
Lemma text_snippet_body resp :
  match text resp with
  | Returns t => slice_to 4000 t
  | Raises _ => EmptyString
  end = slice_to 4000 (body_of resp).
Proof. unfold body_of. now destruct (text resp). Qed.

Lemma classify_response_2xx resp used_scheme :
  (200 <= status_code resp < 300)%Z ->
  classify_response resp used_scheme =
  let snippet := slice_to 4000 (body_of resp) in
  if is_wordpress snippet then
    ("AKTIF_WORDPRESS", Some (status_code resp), Some (url resp),
     "wp_markers_found (" +:+ used_scheme +:+ ")")
  else if is_parking_page snippet then
    ("PARKED_ATAU_MUNGKIN_EXPIRED", Some (status_code resp), Some (url resp),
     "parking_keywords_found (" +:+ used_scheme +:+ ")")
  else
    ("AKTIF_NON_WORDPRESS", Some (status_code resp), Some (url resp),
     "no_wp_markers (" +:+ used_scheme +:+ ")").
Proof.
  intros H. unfold classify_response.
  now rewrite text_snippet_body, (in_range _ _ _ H).
Qed.

Lemma classify_response_4xx resp used_scheme :
  (400 <= status_code resp < 600)%Z ->
  classify_response resp used_scheme =
  if is_parking_page (slice_to 4000 (body_of resp)) then
    ("PARKED_ATAU_MUNGKIN_EXPIRED", Some (status_code resp), Some (url resp),
     "http_" +:+ of_int (status_code resp) +:+ "_parking ("
       +:+ used_scheme +:+ ")")
  else
    ("ERROR_TIDAK_BISA_DIBUKA", Some (status_code resp), Some (url resp),
     "http_" +:+ of_int (status_code resp) +:+ " (" +:+ used_scheme +:+ ")").
Proof.
  intros H. unfold classify_response.
  rewrite text_snippet_body, (in_range _ _ _ H).
  rewrite !above_range by lia. reflexivity.
Qed.

(** C3. A response with a status in 200..299 whose body carries a WordPress
    marker in its first 4000 characters, in any case, is classified
    [AKTIF_WORDPRESS] with the note [wp_markers_found (<scheme>)].  Nothing
    is asked of the parking keywords: the WordPress test comes first and
    wins when both signatures are present. *)
Theorem classify_response_wordpress_first (resp : Response) (used_scheme : string) :
  (200 <= status_code resp <= 299)%Z ->
  has_signature WP_MARKERS (body_of resp) ->
  classify_response resp used_scheme
  = ("AKTIF_WORDPRESS", Some (status_code resp), Some (url resp),
     "wp_markers_found (" +:+ used_scheme +:+ ")").
Proof.
  intros Hst Hwp. rewrite classify_response_2xx by lia. cbv zeta.
  apply is_wordpress_spec in Hwp. now rewrite Hwp.
Qed.

(** A page with both signatures, a WordPress path and a parking phrase. *)
Lemma classify_response_wordpress_first_witness :
  let page :=
    mkResponse 200 "https://a.test/"
               (Returns "<link href=/WP-Content/x.css> Buy this domain") in
  has_signature PARKING_KEYWORDS (body_of page)
  /\ classify_response page "https"
     = ("AKTIF_WORDPRESS", Some 200%Z, Some "https://a.test/",
        "wp_markers_found (https)").
Proof.
  intros page. split; [apply is_parking_page_spec; reflexivity|].
  apply (classify_response_wordpress_first page "https").
  - simpl. lia.
  - apply is_wordpress_spec. reflexivity.
Defined.

(** C4. A response with a status in 400..599 is classified
    [PARKED_ATAU_MUNGKIN_EXPIRED] with the note [http_<code>_parking (<scheme>)]
    when its body has the parking signature and [ERROR_TIDAK_BISA_DIBUKA]
    with the note [http_<code> (<scheme>)] when it has not; either way
    [http_status] is the status code and [final_url] the resolved URL. *)
Theorem classify_response_error_status (resp : Response) (used_scheme : string) :
  (400 <= status_code resp <= 599)%Z ->
  (has_signature PARKING_KEYWORDS (body_of resp) ->
   classify_response resp used_scheme
   = ("PARKED_ATAU_MUNGKIN_EXPIRED", Some (status_code resp), Some (url resp),
      "http_" +:+ of_int (status_code resp) +:+ "_parking ("
        +:+ used_scheme +:+ ")"))
  /\ (~ has_signature PARKING_KEYWORDS (body_of resp) ->
      classify_response resp used_scheme
      = ("ERROR_TIDAK_BISA_DIBUKA", Some (status_code resp), Some (url resp),
         "http_" +:+ of_int (status_code resp) +:+ " ("
           +:+ used_scheme +:+ ")")).
Proof.
  intros Hst. rewrite classify_response_4xx by lia. split; intros H.
  - apply is_parking_page_spec in H. now rewrite H.
  - apply is_parking_page_false in H. now rewrite H.
Qed.

Lemma classify_response_error_status_witness :
  classify_response (mkResponse 404 "http://a.test/x" (Returns "Not Found")) "http"
  = ("ERROR_TIDAK_BISA_DIBUKA", Some 404%Z, Some "http://a.test/x",
     "http_404 (http)")
  /\ classify_response
       (mkResponse 503 "http://b.test/" (Returns "This Domain Is Parked")) "http"
     = ("PARKED_ATAU_MUNGKIN_EXPIRED", Some 503%Z, Some "http://b.test/",
        "http_503_parking (http)").
Proof.
  split.
  - apply (classify_response_error_status
             (mkResponse 404 "http://a.test/x" (Returns "Not Found")) "http").
    + simpl. lia.
    + apply is_parking_page_false. reflexivity.
  - apply (classify_response_error_status
             (mkResponse 503 "http://b.test/" (Returns "This Domain Is Parked"))
             "http").
    + simpl. lia.
    + apply is_parking_page_spec. reflexivity.
Defined.

(** C9. When reading [resp.text] raises, the classifier still returns its
    tuple, the one it returns for the same response with an empty body: both
    signature tests fail on the empty text, so a status in 200..299 gives
    [AKTIF_NON_WORDPRESS], and no exception reaches the caller. *)
Theorem classify_response_unreadable_body
    (resp : Response) (used_scheme : string) (e : Exn) :
  text resp = Raises e ->
  classify_response resp used_scheme
  = classify_response
      (mkResponse (status_code resp) (url resp) (Returns EmptyString))
      used_scheme
  /\ is_wordpress (slice_to 4000 (body_of resp)) = false
  /\ is_parking_page (slice_to 4000 (body_of resp)) = false
  /\ ((200 <= status_code resp <= 299)%Z ->
      classify_response resp used_scheme
      = ("AKTIF_NON_WORDPRESS", Some (status_code resp), Some (url resp),
         "no_wp_markers (" +:+ used_scheme +:+ ")")).
Proof.
  intros He.
  assert (Hb : body_of resp = EmptyString) by (unfold body_of; now rewrite He).
  split; [unfold classify_response; now rewrite He|].
  rewrite Hb. split; [reflexivity|]. split; [reflexivity|].
  intros Hst. rewrite classify_response_2xx by lia. now rewrite Hb.
Qed.

Lemma classify_response_unreadable_body_witness :
  classify_response
    (mkResponse 200 "https://a.test/" (Raises (mkExn "stream not read"))) "https"
  = ("AKTIF_NON_WORDPRESS", Some 200%Z, Some "https://a.test/",
     "no_wp_markers (https)").
Proof.
  apply (classify_response_unreadable_body
           (mkResponse 200 "https://a.test/" (Raises (mkExn "stream not read")))
           "https" (mkExn "stream not read")).
  - reflexivity.
  - simpl. lia.
Defined.

(** ** Transport-error classifier *)

Lemma matches_test patterns msg :
  any_in patterns (lower msg) = true <-> matches patterns msg.
Proof. apply any_in_lower. Qed.

Lemma matches_test_false patterns msg :
  any_in patterns (lower msg) = false <-> ~ matches patterns msg.
Proof.
  rewrite <- matches_test.
  destruct (any_in patterns (lower msg)); split; congruence.
Qed.

(** The three heuristics, in the order they are tried. *)
Lemma classify_transport_error_order exc :
  classify_transport_error exc =
  let msg := lower (str_exc exc) in
  if any_in DNS_PATTERNS msg
  then ("PARKED_ATAU_MUNGKIN_EXPIRED", None, None, "dns_error: " +:+ msg)
  else if any_in TIMEOUT_PATTERNS msg
  then ("ERROR_TIDAK_BISA_DIBUKA", None, None, "timeout: " +:+ msg)
  else if any_in SSL_PATTERNS msg
  then ("ERROR_TIDAK_BISA_DIBUKA", None, None, "ssl_error: " +:+ msg)
  else ("ERROR_TIDAK_BISA_DIBUKA", None, None, msg).
Proof.
  unfold classify_transport_error, any_in, DNS_PATTERNS, TIMEOUT_PATTERNS,
    SSL_PATTERNS, existsb.
  now rewrite !orb_false_r, !orb_assoc.
Qed.

(** C5. An exception whose message has one of the DNS patterns, in any
    case, is classified [PARKED_ATAU_MUNGKIN_EXPIRED] with no [http_status],
    no [final_url] and a note that starts with [dns_error: ] (followed by
    the lower-cased message).  Nothing is asked of the timeout and ssl
    patterns: the DNS test is tried first and wins. *)
Theorem classify_transport_error_dns_first (exc : Exn) :
  matches DNS_PATTERNS (exc_str exc) ->
  exists notes,
    classify_transport_error (Some exc)
    = ("PARKED_ATAU_MUNGKIN_EXPIRED", None, None, notes)
    /\ startswith "dns_error: " notes = true
    /\ notes = "dns_error: " +:+ lower (exc_str exc).
Proof.
  intros H. apply matches_test in H.
  exists ("dns_error: " +:+ lower (exc_str exc)).
  rewrite classify_transport_error_order. cbv zeta. simpl str_exc. rewrite H.
  split; [reflexivity|]. split; [|reflexivity].
  apply prefix_app. eauto.
Qed.

(** A message with a DNS, a timeout and an ssl pattern at once. *)
Lemma classify_transport_error_dns_first_witness :
  let exc := mkExn "SSL handshake timeout: NXDOMAIN" in
  matches TIMEOUT_PATTERNS (exc_str exc) /\ matches SSL_PATTERNS (exc_str exc)
  /\ exists notes,
      classify_transport_error (Some exc)
      = ("PARKED_ATAU_MUNGKIN_EXPIRED", None, None, notes)
      /\ startswith "dns_error: " notes = true
      /\ notes = "dns_error: " +:+ lower (exc_str exc).
Proof.
  intros exc. split; [apply matches_test; reflexivity|].
  split; [apply matches_test; reflexivity|].
  apply (classify_transport_error_dns_first exc).
  apply matches_test. reflexivity.
Defined.

(** C6 does not hold as stated: the note is the lower-cased message, not
    the message as raised. *)
Lemma classify_transport_error_other_counterexample :
  let exc := mkExn "Connection refused" in
  ~ matches DNS_PATTERNS (exc_str exc)
  /\ ~ matches TIMEOUT_PATTERNS (exc_str exc)
  /\ ~ matches SSL_PATTERNS (exc_str exc)
  /\ classify_transport_error (Some exc)
     = ("ERROR_TIDAK_BISA_DIBUKA", None, None, "connection refused")
  /\ classify_transport_error (Some exc)
     <> ("ERROR_TIDAK_BISA_DIBUKA", None, None, exc_str exc).
Proof.
  intros exc. repeat split; try (apply matches_test_false; reflexivity).
  discriminate.
Qed.

(** C6, amended. An exception whose message has none of the DNS, timeout
    and ssl patterns is classified [ERROR_TIDAK_BISA_DIBUKA] with the
    lower-cased message as its note. *)
Theorem classify_transport_error_other (exc : Exn) :
  ~ matches DNS_PATTERNS (exc_str exc) ->
  ~ matches TIMEOUT_PATTERNS (exc_str exc) ->
  ~ matches SSL_PATTERNS (exc_str exc) ->
  classify_transport_error (Some exc)
  = ("ERROR_TIDAK_BISA_DIBUKA", None, None, lower (exc_str exc)).
Proof.
  intros H1 H2 H3. apply matches_test_false in H1, H2, H3.
  rewrite classify_transport_error_order. cbv zeta. simpl str_exc.
  now rewrite H1, H2, H3.
Qed.

Lemma classify_transport_error_other_witness :
  classify_transport_error (Some (mkExn "Connection refused"))
  = ("ERROR_TIDAK_BISA_DIBUKA", None, None, "connection refused").
Proof.
  apply (classify_transport_error_other (mkExn "Connection refused"));
    apply matches_test_false; reflexivity.
Defined.

(** ** Domain prober *)

Lemma run_coro_bind_return {A B} (c : Coro A) (f : A -> Coro B) (g : A -> B) rs :
  (forall a, f a = Return (g a)) ->
  run_coro (bind c f) rs
  = mkRun (issued (run_coro c rs))
          (option_map (map_result g) (outcome (run_coro c rs)))
          (unread (run_coro c rs)).
Proof.
  intros Hf. revert rs. induction c as [a|e|req k IH]; intros rs; simpl.
  - now rewrite Hf.
  - reflexivity.
  - destruct rs as [|r rs]; [reflexivity|]. simpl. now rewrite IH.
Qed.

Lemma after_loop_return domain x :
  after_loop domain x = Return (final_outcome domain x).
Proof. now destruct x. Qed.

Lemma last_cons_some {A} (x : A) l : exists y, last (x :: l) = Some y.
Proof.
  revert x; induction l as [|z l IH]; intros x; [now exists x|].
  exact (IH z).
Qed.

(** Every candidate fails: each is requested, in order, and the loop ends
    with the last exception raised, or with [last_exc] as it was when there
    was no candidate. *)
Lemma for_url_in_all_fail domain urls last_exc es extra :
  length es = length urls ->
  run_coro (for_url_in domain urls last_exc) (map Raises es ++ extra)
  = mkRun (map get_request urls)
          (Some (Returns (Exhausted (from_option Some last_exc (last es)))))
          extra.
Proof.
  revert last_exc es. induction urls as [|u urls IH]; intros le [|e es] Hlen;
    simpl in Hlen; try discriminate Hlen.
  - reflexivity.
  - simpl. rewrite IH by congruence. simpl. do 3 f_equal.
    destruct es as [|e' es]; [reflexivity|].
    change (last (e :: e' :: es)) with (last (e' :: es)).
    now destruct (last_cons_some e' es) as [x ->].
Qed.

(** The candidates before [u] fail and [u] is answered: the loop returns
    the classification of that response and the candidates after [u] are
    not requested. *)
Lemma for_url_in_first_response domain pre u post last_exc es resp extra :
  length es = length pre ->
  run_coro (for_url_in domain (pre ++ u :: post) last_exc)
           (map Raises es ++ Returns resp :: extra)
  = mkRun (map get_request (pre ++ [u]))
          (Some (Returns (Returned
             (outcome_of domain (classify_response resp (used_scheme_of u))))))
          extra.
Proof.
  revert last_exc es. induction pre as [|p pre IH]; intros le [|e es] Hlen;
    simpl in Hlen; try discriminate Hlen.
  - reflexivity.
  - simpl. now rewrite IH by congruence.
Qed.

(** The loop ends by exhaustion only after a request, and then with an
    exception recorded, provided there is a candidate. *)
Lemma for_url_in_exhausted domain urls last_exc rs iss le rest :
  run_coro (for_url_in domain urls last_exc) rs
  = mkRun iss (Some (Returns (Exhausted le))) rest ->
  (urls = [] /\ iss = [] /\ le = last_exc)
  \/ (urls <> [] /\ iss <> [] /\ exists e, le = Some e).
Proof.
  revert last_exc rs iss. induction urls as [|u urls IH]; intros le0 rs iss; simpl.
  - intros [= <- <- <-]. now left.
  - intros H. right. destruct rs as [|[resp|e] rs]; simpl in H; try discriminate H.
    injection H as <- Ho Hr.
    split; [discriminate|]. split; [discriminate|].
    destruct (run_coro (for_url_in domain urls (Some e)) rs) as [i o r] eqn:E.
    simpl in Ho, Hr. subst o r.
    destruct (IH _ _ _ E) as [(_ & _ & ->)|(_ & _ & H)]; eauto.
Qed.

Lemma check_one_domain_skipped line :
  skipped line = true -> check_one_domain line = Return None.
Proof. unfold skipped, check_one_domain. now intros ->. Qed.

Lemma check_one_domain_probe line :
  skipped line = false ->
  exists urls,
    build_candidate_urls (strip line) = Returns urls
    /\ (length urls = 1 \/ length urls = 2)
    /\ check_one_domain line
       = (x <- for_url_in (strip line) urls None ;; after_loop (strip line) x).
Proof.
  intros Hs. destruct (build_total (strip line)) as [urls Hu]. exists urls.
  split; [exact Hu|]. split.
  - apply (build_length (strip line)); [|exact Hu].
    rewrite strip_idem. intros E. unfold skipped in Hs. now rewrite E in Hs.
  - unfold skipped in Hs. unfold check_one_domain. now rewrite Hs, Hu.
Qed.

Lemma run_check_one_domain line urls rs :
  skipped line = false ->
  build_candidate_urls (strip line) = Returns urls ->
  run_coro (check_one_domain line) rs
  = let loop := run_coro (for_url_in (strip line) urls None) rs in
    mkRun (issued loop)
          (option_map (map_result (final_outcome (strip line))) (outcome loop))
          (unread loop).
Proof.
  intros Hs Hu. destruct (check_one_domain_probe _ Hs) as (urls' & Hu' & _ & ->).
  assert (urls' = urls) as -> by congruence.
  apply run_coro_bind_return, after_loop_return.
Qed.

(** C1. For a line that is not skipped, the prober requests the candidates
    in order.  When the candidates before [u] raise and [u] is answered,
    with whatever status, exactly those requests are made, the result is the
    classification of that response, and neither a later candidate is
    requested nor a later reply read.  When every candidate raises, each is
    requested once, in order, and the result is the transport-error
    classification of the last exception. *)
Theorem check_one_domain_fallback (line : string) :
  skipped line = false ->
  exists urls,
    build_candidate_urls (strip line) = Returns urls
    /\ (forall pre u post es resp extra,
          urls = pre ++ u :: post -> length es = length pre ->
          run_coro (check_one_domain line)
                   (map Raises es ++ Returns resp :: extra)
          = mkRun (map get_request (pre ++ [u]))
                  (Some (Returns (Some
                     (outcome_of (strip line)
                        (classify_response resp (used_scheme_of u))))))
                  extra)
    /\ (forall es extra,
          length es = length urls ->
          run_coro (check_one_domain line) (map Raises es ++ extra)
          = mkRun (map get_request urls)
                  (Some (Returns (Some
                     (outcome_of (strip line)
                        (classify_transport_error (last es))))))
                  extra).
Proof.
  intros Hs. destruct (check_one_domain_probe _ Hs) as (urls & Hu & _ & _).
  exists urls. split; [exact Hu|]. split.
  - intros pre u post es resp extra -> Hlen.
    rewrite (run_check_one_domain _ _ _ Hs Hu).
    now rewrite for_url_in_first_response.
  - intros es extra Hlen.
    rewrite (run_check_one_domain _ _ _ Hs Hu).
    rewrite for_url_in_all_fail by exact Hlen. cbv zeta. simpl.
    now destruct (last es).
Qed.

(** The https request fails, the http request is answered with an error
    page: the prober settles for that page and reads no further reply. *)
Lemma check_one_domain_fallback_witness :
  let page := mkResponse 500 "http://b.test/" (Returns "oops") in
  run_coro (check_one_domain " b.test ")
           [Raises (mkExn "connect failed"); Returns page;
            Returns (mkResponse 200 "http://b.test/" (Returns "unused"))]
  = mkRun [get_request "https://b.test"; get_request "http://b.test"]
          (Some (Returns (Some
             (mkOutcome "b.test" "ERROR_TIDAK_BISA_DIBUKA" (Some 500%Z)
                        (Some "http://b.test/") "http_500 (http)"))))
          [Returns (mkResponse 200 "http://b.test/" (Returns "unused"))].
Proof.
  intros page.
  destruct (check_one_domain_fallback " b.test " eq_refl) as (urls & Hu & H & _).
  vm_compute in Hu. injection Hu as <-.
  exact (H ["https://b.test"] "http://b.test" [] [mkExn "connect failed"] page
           [Returns (mkResponse 200 "http://b.test/" (Returns "unused"))]
           eq_refl eq_refl).
Defined.

(** C10. A line that is not skipped has one or two candidates, so the loop
    of [check_one_domain] runs out of them only after a request was made
    and an exception recorded: [classify_transport_error], called where the
    loop is exhausted, never gets [None].  A skipped line returns before the
    loop and calls no classifier. *)
Theorem transport_error_never_none (line : string) :
  (skipped line = true -> check_one_domain line = Return None)
  /\ (skipped line = false ->
      strip (strip line) = strip line
      /\ exists urls,
        build_candidate_urls (strip line) = Returns urls
        /\ (length urls = 1 \/ length urls = 2)
        /\ check_one_domain line
           = (x <- for_url_in (strip line) urls None ;;
              after_loop (strip line) x)
        /\ forall rs iss last_exc rest,
            run_coro (for_url_in (strip line) urls None) rs
            = mkRun iss (Some (Returns (Exhausted last_exc))) rest ->
            iss <> [] /\ exists e, last_exc = Some e).
Proof.
  split; [apply check_one_domain_skipped|]. intros Hs.
  split; [apply strip_idem|].
  destruct (check_one_domain_probe _ Hs) as (urls & Hu & Hlen & Hc).
  exists urls. repeat split; auto;
    destruct (for_url_in_exhausted _ _ _ _ _ _ _ H) as [(-> & _)|(_ & Hi & He)];
    auto; simpl in Hlen; lia.
Qed.

Lemma transport_error_never_none_witness :
  exists urls,
    build_candidate_urls "http://a.test" = Returns urls
    /\ (length urls = 1 \/ length urls = 2)
    /\ run_coro (for_url_in "http://a.test" urls None) [Raises (mkExn "refused")]
       = mkRun [get_request "http://a.test"]
               (Some (Returns (Exhausted (Some (mkExn "refused"))))) [].
Proof.
  destruct (proj2 (transport_error_never_none "http://a.test") eq_refl)
    as (_ & urls & Hu & Hlen & _ & _).
  exists urls. split; [exact Hu|]. split; [exact Hlen|].
  vm_compute in Hu. injection Hu as <-. reflexivity.
Defined.

(** ** Probe scheduler: the admission gate *)

Lemma sum_insert {A} (f : A -> nat) (l : list A) i x y :
  l !! i = Some x ->
  sum_list (map f (<[i:=y]> l)) + f x = sum_list (map f l) + f y.
Proof.
  revert i. induction l as [|z l IH]; intros [|i] H; simpl in *;
    try discriminate H.
  - injection H as ->. lia.
  - specialize (IH _ H). lia.
Qed.

Lemma filter_length_sum {A} (P : A -> bool) (l : list A) :
  length (List.filter P l) = sum_list (map (fun x => Nat.b2n (P x)) l).
Proof. induction l as [|z l IH]; simpl; [|destruct (P z); simpl]; lia. Qed.

Lemma filter_insert_length {A} (P : A -> bool) (l : list A) i x y :
  l !! i = Some x ->
  length (List.filter P (<[i:=y]> l)) + Nat.b2n (P x)
  = length (List.filter P l) + Nat.b2n (P y).
Proof.
  intros H. rewrite !filter_length_sum.
  apply (sum_insert (fun x => Nat.b2n (P x)) _ _ _ _ H).
Qed.

(** [step] and [Step] are the same transitions. *)
Lemma step_Step a s s' : step a s = Some s' <-> Step s a s'.
Proof.
  split.
  - unfold step. destruct (failed s) eqn:Ef; [discriminate|].
    destruct a as [i|i r|i|].
    + destruct (tasks s !! i) as [[d [c|c|r0] reqs]|] eqn:Ei; try discriminate.
      destruct (sem_value s) as [|v] eqn:Ev; [discriminate|].
      intros [= <-]. rewrite <- Ef at 1. now apply StepAcquire.
    + destruct (tasks s !! i) as [[d [c|[res|e|req k]|r0] reqs]|] eqn:Ei;
        try discriminate.
      intros [= <-]. now apply StepDeliver.
    + destruct (tasks s !! i) as [[d [c|[res|e|req k]|r0] reqs]|] eqn:Ei;
        try discriminate; intros [= <-];
        [now apply StepReturn | now apply StepRaise].
    + destruct (completed s) as [|r q] eqn:Ec; [discriminate|].
      intros [= <-]. now apply StepCollect.
  - intros H. destruct H as [i d body reqs v Hf Hi Hv|i r d req k reqs Hf Hi
                            |i d res reqs Hf Hi|i d e reqs Hf Hi|r q Hf Hc];
      unfold step; rewrite Hf, ?Hi, ?Hv, ?Hc; reflexivity.
Qed.

Lemma collected_tasks r q s :
  tasks (collected r q s) = tasks s /\ sem_value (collected r q s) = sem_value s.
Proof. now destruct r as [[o|]|e]. Qed.

(** A step moves slots between the semaphore and the workers inside the
    block; none is created or lost. *)
Lemma step_slots a s s' :
  step a s = Some s' ->
  sem_value s' + length (holders s') = sem_value s + length (holders s).
Proof.
  intros H. apply step_Step in H.
  destruct H as [i d body reqs v Hf Hi Hv|i r d req k reqs Hf Hi
                |i d res reqs Hf Hi|i d e reqs Hf Hi|r q Hf Hc];
    unfold holders, leave, set_task; simpl.
  - pose proof (filter_insert_length is_holding _ _ _
                  (mkWorker d (Holding body) reqs) Hi) as H.
    cbn in H. lia.
  - pose proof (filter_insert_length is_holding _ _ _
                  (mkWorker d (Holding (k r)) (reqs ++ [req])) Hi) as H.
    cbn in H. lia.
  - pose proof (filter_insert_length is_holding _ _ _
                  (mkWorker d (Finished (Returns res)) reqs) Hi) as H.
    cbn in H. lia.
  - pose proof (filter_insert_length is_holding _ _ _
                  (mkWorker d (Finished (Raises e)) reqs) Hi) as H.
    cbn in H. lia.
  - now destruct (collected_tasks r q s) as [-> ->].
Qed.

Lemma init_slots K worker domains :
  holders (init_sched K worker domains) = [].
Proof. unfold holders. simpl. now induction domains. Qed.

Lemma run_slots acts s s' :
  run_actions acts s = Some s' ->
  sem_value s' + length (holders s') = sem_value s + length (holders s).
Proof.
  revert s. induction acts as [|a acts IH]; intros s; simpl.
  - now intros [= ->].
  - destruct (step a s) as [s1|] eqn:E; [|discriminate].
    intros H. rewrite (IH _ H). exact (step_slots _ _ _ E).
Qed.

(** Only a worker inside the block gets a reply from the network. *)
Lemma deliver_holder i r s s' :
  step (Deliver i r) s = Some s' ->
  exists w, tasks s !! i = Some w /\ In w (holders s).
Proof.
  intros H. unfold step in H. destruct (failed s); [discriminate|].
  destruct (tasks s !! i) as [w|] eqn:E; [|discriminate]. exists w.
  split; [reflexivity|]. apply filter_In. split.
  - apply list_elem_of_In, list_elem_of_lookup. eauto.
  - destruct w as [d [c|c|r0] reqs]; try discriminate H. reflexivity.
Qed.

(** Leaving the block, by [return] or by an exception, gives the slot back
    and finishes the worker. *)
Lemma exit_releases i s w :
  failed s = None -> tasks s !! i = Some w ->
  (forall res, phase w = Holding (Return res) ->
     step (Exit i) s = Some (leave i w (Returns res) s))
  /\ (forall e, phase w = Holding (Raise e) ->
     step (Exit i) s = Some (leave i w (Raises e) s)).
Proof.
  intros Hf Hw. unfold step. rewrite Hf, Hw.
  destruct w as [d ph reqs]. simpl. split; intros x ->; reflexivity.
Qed.

Lemma leave_released i w r s :
  tasks s !! i = Some w -> is_holding w = true ->
  sem_value (leave i w r s) = S (sem_value s)
  /\ S (length (holders (leave i w r s))) = length (holders s)
  /\ exists w', tasks (leave i w r s) !! i = Some w' /\ phase w' = Finished r.
Proof.
  intros Hw Hh. split; [reflexivity|]. split.
  - unfold holders, leave. simpl.
    pose proof (filter_insert_length is_holding _ _ _
                  (mkWorker (line w) (Finished r) (sent w)) Hw) as Hf.
    rewrite Hh in Hf. cbn in Hf. lia.
  - exists (mkWorker (line w) (Finished r) (sent w)). split; [|reflexivity].
    simpl. apply list_lookup_insert_eq. eapply lookup_lt_Some; eauto.
Qed.

Lemma exit_only_holder i s s' :
  step (Exit i) s = Some s' ->
  exists w r, tasks s !! i = Some w /\ is_holding w = true
              /\ s' = leave i w r s.
Proof.
  intros H. unfold step in H. destruct (failed s); [discriminate|].
  destruct (tasks s !! i) as [[d [c|[res|e|req k]|r0] reqs]|] eqn:E;
    try discriminate H; injection H as <-; eauto.
Qed.

Lemma all_finished_no_holder ws :
  Forall (fun w => is_finished w = true) ws -> List.filter is_holding ws = [].
Proof.
  induction 1 as [|w ws Hw _ IH]; [reflexivity|]. simpl. rewrite IH.
  destruct w as [d [c|c|r] reqs]; try discriminate Hw; reflexivity.
Qed.

(** C8. In every state of a run with [K] slots, the free slots and the
    workers inside [async with sem] add up to [K], so at most [K] workers
    hold a slot at once; only such a worker is given a network reply; a
    worker leaves the block by [return] or by an exception alike, and
    leaving gives its slot back and finishes it; once all workers are done
    every slot is free.  [run] uses [K = MAX_CONCURRENCY = 20]. *)
Theorem semaphore_bound (K : nat) (worker : string -> Coro (option Outcome))
    (domains : list string) (acts : list Action) (s : Sched) :
  run_actions acts (init_sched K worker domains) = Some s ->
  sem_value s + length (holders s) = K
  /\ length (holders s) <= K
  /\ (forall i r s', step (Deliver i r) s = Some s' ->
        exists w, tasks s !! i = Some w /\ In w (holders s))
  /\ (forall i w, failed s = None -> tasks s !! i = Some w ->
        (forall res, phase w = Holding (Return res) ->
           step (Exit i) s = Some (leave i w (Returns res) s))
        /\ (forall e, phase w = Holding (Raise e) ->
           step (Exit i) s = Some (leave i w (Raises e) s)))
  /\ (forall i s', step (Exit i) s = Some s' ->
        sem_value s' = S (sem_value s)
        /\ S (length (holders s')) = length (holders s)
        /\ exists w' r, tasks s' !! i = Some w' /\ phase w' = Finished r)
  /\ (Forall (fun w => is_finished w = true) (tasks s) -> sem_value s = K)
  /\ (MAX_CONCURRENCY = 20
      /\ forall f, run f = init_sched 20 check_one_domain (read_domains f)).
Proof.
  intros Hrun. apply run_slots in Hrun. rewrite init_slots in Hrun.
  simpl in Hrun. rewrite Nat.add_0_r in Hrun.
  split; [exact Hrun|]. split; [lia|].
  split; [intros i r s'; apply deliver_holder|].
  split; [intros i w; apply exit_releases|]. split; [|split].
  - intros i s' H. apply exit_only_holder in H as (w & r & Hw & Hh & ->).
    destruct (leave_released i w r s Hw Hh) as (H1 & H2 & w' & H3 & H4).
    split; [exact H1|]. split; [exact H2|]. exists w', r. now split.
  - intros Hall. unfold holders in Hrun.
    rewrite (all_finished_no_holder _ Hall) in Hrun. simpl in Hrun. lia.
  - split; reflexivity.
Qed.

(** Two workers inside the block, each with its reply and about to leave. *)
Lemma semaphore_bound_witness :
  let page := mkResponse 200 "https://a.test/" (Returns "hello") in
  exists s,
    run_actions [Acquire 0; Acquire 1; Deliver 1 (Returns page);
                 Deliver 0 (Returns page)]
                (run ["a.test"; "b.test"]) = Some s
    /\ sem_value s = 18 /\ length (holders s) = 2
    /\ sem_value s + length (holders s) = 20.
Proof.
  intros page. eexists. split; [vm_compute; reflexivity|].
  split; [reflexivity|]. split; [reflexivity|].
  refine (proj1 (semaphore_bound 20 check_one_domain
                   (read_domains ["a.test"; "b.test"])
                   [Acquire 0; Acquire 1; Deliver 1 (Returns page);
                    Deliver 0 (Returns page)]
                   _ _)).
  vm_compute. reflexivity.
Defined.

(** ** Probe scheduler: one outcome per reported line *)

Lemma domain_outcome_of d c : domain (outcome_of d c) = d.
Proof. now destruct c as [[[st hs] fu] n]. Qed.

Lemma skipped_strip line : skipped (strip line) = skipped line.
Proof. unfold skipped. now rewrite strip_idem. Qed.

(** A line that starts with the comment mark, before or after trimming, and
    a line that is blank are skipped. *)
Lemma skipped_lines line :
  strip line = EmptyString \/ startswith "#" line = true
  \/ startswith "#" (strip line) = true ->
  skipped line = true.
Proof.
  unfold skipped. intros [->|[H|H]]; [reflexivity|..].
  - rewrite (strip_hash _ H). apply orb_true_r.
  - rewrite H. apply orb_true_r.
Qed.

Lemma probing_loop d urls last_exc :
  skipped d = false ->
  probing d urls
    (x <- for_url_in (strip d) urls last_exc ;; after_loop (strip d) x).
Proof.
  intros Hs.
  assert (Hy : forall c, yield (Returns (Some (outcome_of (strip d) c)))
                         = expected d).
  { intros c. unfold expected. rewrite Hs. simpl. now rewrite domain_outcome_of. }
  revert last_exc. induction urls as [|u urls IH]; intros le.
  - apply Hy.
  - split; [reflexivity|]. intros [resp|e]; [apply Hy | apply IH].
Qed.

Lemma probing_check d : probing d (candidates d) (check_one_domain d).
Proof.
  unfold candidates. destruct (skipped d) eqn:Hs.
  - rewrite (check_one_domain_skipped _ Hs). cbn [probing yield].
    unfold expected. now rewrite Hs.
  - destruct (check_one_domain_probe _ Hs) as (urls & -> & _ & ->).
    now apply probing_loop.
Qed.

Lemma drop_cons_inv {A} (l : list A) n u rest :
  drop n l = u :: rest -> l !! n = Some u /\ drop (S n) l = rest.
Proof.
  intros H. split.
  - rewrite <- (Nat.add_0_r n), <- lookup_drop, H. reflexivity.
  - replace (S n) with (n + 1) by lia. rewrite <- drop_drop, H. reflexivity.
Qed.

Lemma insert_same_image {A B} (f : A -> B) (l : list A) i x y :
  l !! i = Some x -> f y = f x -> map f (<[i:=y]> l) = map f l.
Proof.
  intros H E. rewrite list_fmap_insert, E. apply list_insert_id.
  now rewrite list_lookup_fmap, H.
Qed.

Lemma concat_map_insert {A B} (f : A -> list B) (l : list A) i x y :
  l !! i = Some x -> f y = [] ->
  concat (map f l) ≡ₚ f x ++ concat (map f (<[i:=y]> l)).
Proof.
  revert i. induction l as [|z l IH]; intros [|i] H Hy; simpl in *;
    try discriminate H.
  - injection H as ->. now rewrite Hy.
  - rewrite (IH _ H Hy). rewrite !app_assoc.
    apply Permutation_app_tail, Permutation_app_comm.
Qed.

Lemma concat_yield_snoc q r :
  concat (map yield (q ++ [r])) = concat (map yield q) ++ yield r.
Proof. rewrite map_app, concat_app. simpl. now rewrite app_nil_r. Qed.

(** *** The invariant *)

Lemma init_inv K domains :
  run_inv domains (init_sched K check_one_domain domains).
Proof.
  split; simpl.
  - induction domains as [|d ds IH]; simpl; congruence.
  - induction domains as [|d ds IH]; constructor; [|exact IH].
    exists 0. split; [reflexivity|]. apply probing_check.
  - constructor.
  - reflexivity.
  - unfold pending. induction domains as [|d ds IH]; [reflexivity|].
    simpl in *. now apply Permutation_app_head.
Qed.

Lemma step_inv domains a s s' :
  run_inv domains s -> step a s = Some s' -> run_inv domains s'.
Proof.
  intros [Hl Hw Hc Hf Hr] H. apply step_Step in H.
  destruct H as [i d body reqs v _ Hi Hv|i r d req k reqs _ Hi
                |i d res reqs _ Hi|i d e reqs _ Hi|r q _ Hq].
  - (* a worker enters the block *)
    pose proof (Forall_lookup_1 _ _ _ _ Hw Hi) as (n & Hs & Hp).
    split; simpl; auto.
    + now rewrite (insert_same_image line _ _ _ _ Hi).
    + apply Forall_insert; [exact Hw|]. now exists n.
    + unfold pending in *. now rewrite (insert_same_image _ _ _ _ _ Hi).
  - (* a reply arrives *)
    pose proof (Forall_lookup_1 _ _ _ _ Hw Hi) as (n & Hs & Hp).
    simpl in Hs, Hp.
    destruct (drop n (candidates d)) as [|u rest] eqn:Ed; [contradiction|].
    destruct Hp as [-> Hk]. apply drop_cons_inv in Ed as [Hn Hd].
    split; simpl; auto.
    + now rewrite (insert_same_image line _ _ _ _ Hi).
    + apply Forall_insert; [exact Hw|]. exists (S n). simpl. split.
      * rewrite (take_S_r _ _ _ Hn), map_app, Hs. reflexivity.
      * rewrite Hd. apply Hk.
    + unfold pending in *. now rewrite (insert_same_image _ _ _ _ _ Hi).
  - (* a worker returns *)
    pose proof (Forall_lookup_1 _ _ _ _ Hw Hi) as (n & Hs & Hp).
    simpl in Hs, Hp. split; simpl; auto.
    + now rewrite (insert_same_image line _ _ _ _ Hi).
    + apply Forall_insert; [exact Hw|]. exists n. simpl. eauto.
    + apply Forall_app. split; [exact Hc|]. constructor; eauto.
    + rewrite <- Hr, concat_yield_snoc. unfold pending.
      rewrite (concat_map_insert _ _ _ _
                 (mkWorker d (Finished (Returns res)) reqs) Hi eq_refl).
      simpl. rewrite Hp, <- !app_assoc. reflexivity.
  - (* a worker raises: the prober never does *)
    pose proof (Forall_lookup_1 _ _ _ _ Hw Hi) as (n & Hs & Hp).
    contradiction.
  - (* the main loop takes a result *)
    rewrite Hq in Hc, Hr. apply Forall_cons in Hc as [[res ->] Hc].
    destruct res as [o|]; split; simpl; auto.
    rewrite <- Hr, map_app. simpl. rewrite <- !app_assoc. reflexivity.
Qed.

Lemma run_inv_reach domains acts s s' :
  run_inv domains s -> run_actions acts s = Some s' -> run_inv domains s'.
Proof.
  revert s. induction acts as [|a acts IH]; intros s Hi; simpl.
  - now intros [= <-].
  - destruct (step a s) as [s1|] eqn:E; [|discriminate].
    apply IH. exact (step_inv _ _ _ _ Hi E).
Qed.

(** *** Progress and termination *)

Lemma step_measure domains a s s' :
  run_inv domains s -> step a s = Some s' -> measure s' < measure s.
Proof.
  intros [Hl Hw Hc Hf Hr] H. apply step_Step in H. unfold measure.
  destruct H as [i d body reqs v _ Hi Hv|i r d req k reqs _ Hi
                |i d res reqs _ Hi|i d e reqs _ Hi|r q _ Hq]; simpl.
  - pose proof (sum_insert weight _ _ _ (mkWorker d (Holding body) reqs) Hi) as H.
    cbn in H. lia.
  - pose proof (Forall_lookup_1 _ _ _ _ Hw Hi) as (n & Hs & Hp).
    simpl in Hs, Hp.
    destruct (drop n (candidates d)) as [|u rest] eqn:Ed; [contradiction|].
    apply drop_cons_inv in Ed as [Hn _]. apply lookup_lt_Some in Hn.
    assert (length reqs = n) by (rewrite Hs, length_map, length_take; lia).
    pose proof (sum_insert weight _ _ _
                  (mkWorker d (Holding (k r)) (reqs ++ [req])) Hi) as H1.
    cbn in H1. rewrite length_app in H1. simpl in H1. lia.
  - pose proof (sum_insert weight _ _ _
                  (mkWorker d (Finished (Returns res)) reqs) Hi) as H.
    cbn in H. rewrite length_app. simpl. lia.
  - pose proof (sum_insert weight _ _ _
                  (mkWorker d (Finished (Raises e)) reqs) Hi) as H.
    cbn in H. rewrite length_app. simpl. lia.
  - rewrite Hq. destruct r as [[o|]|e]; simpl; lia.
Qed.

Lemma run_measure domains acts s s' :
  run_inv domains s -> run_actions acts s = Some s' ->
  length acts + measure s' <= measure s.
Proof.
  revert s. induction acts as [|a acts IH]; intros s Hi; simpl.
  - intros [= <-]. lia.
  - destruct (step a s) as [s1|] eqn:E; [|discriminate]. intros H.
    pose proof (step_measure _ _ _ _ Hi E).
    pose proof (IH _ (step_inv _ _ _ _ Hi E) H). lia.
Qed.

Lemma unfinished_or_done (ws : list Worker) :
  Forall (fun w => is_finished w = true) ws
  \/ exists i w, ws !! i = Some w /\ is_finished w = false.
Proof.
  induction ws as [|w ws [IH|(i & w' & Hi & Hw)]].
  - left. constructor.
  - destruct (is_finished w) eqn:E.
    + left. now constructor.
    + right. exists 0, w. now split.
  - right. exists (S i), w'. now split.
Qed.

Lemma holder_exists (ws : list Worker) :
  0 < length (List.filter is_holding ws) ->
  exists i w, ws !! i = Some w /\ is_holding w = true.
Proof.
  induction ws as [|w ws IH]; simpl; [lia|].
  destruct (is_holding w) eqn:E.
  - intros _. exists 0, w. now split.
  - intros H. destruct (IH H) as (i & w' & Hi & Hw). exists (S i), w'. now split.
Qed.

(** A worker inside the block can always move: its reply arrives, or it
    leaves. *)
Lemma holder_steps s i w :
  failed s = None -> tasks s !! i = Some w -> is_holding w = true ->
  exists a s', step a s = Some s'.
Proof.
  intros Hf Hi Hh. destruct w as [d [c|[res|e|req k]|r] reqs];
    try discriminate Hh.
  - exists (Exit i). eexists. apply step_Step.
    eapply StepReturn; eassumption.
  - exists (Exit i). eexists. apply step_Step.
    eapply StepRaise; eassumption.
  - exists (Deliver i (Raises IndexError)). eexists. apply step_Step.
    eapply StepDeliver; eassumption.
Qed.

(** No deadlock: a run that is not over can take a step. *)
Lemma progress K s :
  0 < K -> failed s = None -> sem_value s + length (holders s) = K ->
  final s \/ exists a s', step a s = Some s'.
Proof.
  intros HK Hf Hs. destruct (completed s) as [|r q] eqn:Hq.
  2:{ right. exists Collect. eexists. apply step_Step.
      eapply StepCollect; eassumption. }
  destruct (unfinished_or_done (tasks s)) as [Hall|(i & w & Hi & Hw)].
  { left. now split. }
  right. destruct (is_holding w) eqn:Hh.
  { exact (holder_steps _ _ _ Hf Hi Hh). }
  destruct (sem_value s) as [|v] eqn:Hv.
  - destruct (holder_exists (tasks s)) as (j & w' & Hj & Hh').
    { unfold holders in Hs. lia. }
    exact (holder_steps _ _ _ Hf Hj Hh').
  - destruct w as [d [c|c|r] reqs]; try discriminate.
    exists (Acquire i). eexists. apply step_Step. eapply StepAcquire; eauto.
Qed.

(** Every run can be continued to its end. *)
Lemma completes K domains n s :
  0 < K -> measure s <= n -> run_inv domains s ->
  sem_value s + length (holders s) = K ->
  exists acts s', run_actions acts s = Some s' /\ final s'.
Proof.
  intros HK. revert s. induction n as [|n IH]; intros s Hm Hi Hs;
    destruct (progress K s HK (inv_failed _ _ Hi) Hs) as [Hfin|(a & s1 & Ha)];
    try (now exists [], s).
  - pose proof (step_measure _ _ _ _ Hi Ha). lia.
  - destruct (IH s1) as (acts & s' & Hrun & Hfin).
    + pose proof (step_measure _ _ _ _ Hi Ha). lia.
    + exact (step_inv _ _ _ _ Hi Ha).
    + rewrite (step_slots _ _ _ Ha). exact Hs.
    + exists (a :: acts), s'. simpl. now rewrite Ha.
Qed.

(** *** The report *)

Lemma pending_finished ws :
  Forall (fun w => is_finished w = true) ws -> pending ws = [].
Proof.
  unfold pending. induction 1 as [|w ws Hw _ IH]; [reflexivity|].
  simpl. now rewrite Hw, IH.
Qed.

Lemma expected_read_domains f :
  concat (map expected (read_domains f)) = reported f.
Proof.
  unfold read_domains, reported. induction f as [|l f IH]; [reflexivity|].
  simpl. unfold skipped at 1. destruct (is_empty (strip l)) eqn:E; simpl.
  - exact IH.
  - unfold expected at 1. rewrite skipped_strip, strip_idem.
    unfold skipped at 1. rewrite E. simpl.
    destruct (startswith "#" (strip l)); simpl; now rewrite IH.
Qed.

(** At any time the outcomes collected are among those due; at the end
    they are exactly those due. *)
Lemma report_partial domains s :
  run_inv domains s ->
  map domain (results s) ⊆+ concat (map expected domains).
Proof.
  intros Hi. rewrite <- (inv_report _ _ Hi). now apply submseteq_inserts_r.
Qed.

Lemma report_final domains s :
  run_inv domains s -> final s ->
  map domain (results s) ≡ₚ concat (map expected domains).
Proof.
  intros Hi (Hall & Hq & _). rewrite <- (inv_report _ _ Hi), Hq.
  rewrite (pending_finished _ Hall). simpl. now rewrite app_nil_r.
Qed.

Lemma worker_requests domains s w :
  run_inv domains s -> In w (tasks s) ->
  exists n, sent w = map get_request (take n (candidates (line w))).
Proof.
  intros Hi Hw. apply list_elem_of_In in Hw.
  destruct (proj1 (Forall_forall _ _) (inv_workers _ _ Hi) w Hw) as (n & Hs & _).
  eauto.
Qed.

(** C7 does not hold as stated: a domain listed twice is probed twice
    and has two outcomes in the result set. *)
Lemma run_report_counterexample :
  let page := mkResponse 200 "https://a.test/" (Returns "hello") in
  exists s,
    run_actions [Acquire 0; Deliver 0 (Returns page); Exit 0; Collect;
                 Acquire 1; Deliver 1 (Returns page); Exit 1; Collect]
                (run ["a.test"; "a.test"]) = Some s
    /\ final s
    /\ map domain (results s) = ["a.test"; "a.test"]
    /\ map sent (tasks s)
       = [[get_request "https://a.test"]; [get_request "https://a.test"]]
    /\ ~ NoDup (map domain (results s)).
Proof.
  intros page. eexists. split; [vm_compute; reflexivity|].
  split; [repeat constructor|]. split; [reflexivity|]. split; [reflexivity|].
  simpl. intros H. apply NoDup_cons in H as [H _]. apply H. now left.
Qed.

(** C7, amended. [run] starts one worker per line that is not blank, and a
    worker requests each candidate of its line at most once, in order.  A
    run that is not over can go on, it is over within [measure (run f)]
    steps, and it can always be brought to its end.  The outcomes collected
    so far are among those due, and at the end there is exactly one outcome
    for each line that is not skipped, under its trimmed text, and none for
    a blank or comment line.  A domain listed on several lines has one
    outcome per listing; when the reported lines are distinct, so are the
    outcomes. *)
Theorem run_report (f : list string) (acts : list Action) (s : Sched) :
  run_actions acts (run f) = Some s ->
  map line (tasks s) = read_domains f
  /\ (forall w, In w (tasks s) ->
        exists n, sent w = map get_request (take n (candidates (line w))))
  /\ (final s \/ exists a s', step a s = Some s')
  /\ length acts + measure s <= measure (run f)
  /\ (exists acts' s', run_actions acts' s = Some s' /\ final s')
  /\ map domain (results s) ⊆+ reported f
  /\ (final s ->
        map domain (results s) ≡ₚ reported f
        /\ length (results s) = length (reported f)
        /\ (NoDup (reported f) -> NoDup (map domain (results s))))
  /\ (forall line,
        strip line = EmptyString \/ startswith "#" line = true
        \/ startswith "#" (strip line) = true ->
        skipped line = true /\ reported [line] = []).
Proof.
  intros Hrun.
  pose proof (init_inv MAX_CONCURRENCY (read_domains f)) as Hi0.
  pose proof (run_inv_reach _ _ _ _ Hi0 Hrun) as Hi.
  assert (Hs : sem_value s + length (holders s) = MAX_CONCURRENCY).
  { rewrite (run_slots _ _ _ Hrun). unfold run. rewrite init_slots.
    reflexivity. }
  assert (HK : 0 < MAX_CONCURRENCY) by (unfold MAX_CONCURRENCY; lia).
  split; [exact (inv_lines _ _ Hi)|].
  split; [intros w; exact (worker_requests _ _ w Hi)|].
  split; [exact (progress _ _ HK (inv_failed _ _ Hi) Hs)|].
  split; [exact (run_measure _ _ _ _ Hi0 Hrun)|].
  split; [exact (completes _ _ _ _ HK (le_n _) Hi Hs)|].
  split; [rewrite <- expected_read_domains; exact (report_partial _ _ Hi)|].
  split.
  - intros Hfin. pose proof (report_final _ _ Hi Hfin) as Hp.
    rewrite expected_read_domains in Hp. split; [exact Hp|]. split.
    + rewrite <- (length_map domain). now apply Permutation_length.
    + intros Hnd. now rewrite Hp.
  - intros line H. apply skipped_lines in H. split; [exact H|].
    unfold reported. simpl. now rewrite H.
Qed.

(** The end-to-end example of the specification: four lines, two outcomes. *)
Lemma run_report_witness :
  let page := mkResponse 200 "http://a.test/" (Returns "hello") in
  exists s,
    run_actions [Acquire 0; Acquire 1; Acquire 2;
                 Deliver 2 (Raises (mkExn "connect failed"));
                 Deliver 0 (Returns page); Exit 1; Exit 0;
                 Deliver 2 (Raises (mkExn "connect failed")); Exit 2;
                 Collect; Collect; Collect]
                (run ["http://a.test"; EmptyString; "# comment"; "b.test"])
    = Some s
    /\ map domain (results s) ≡ₚ ["http://a.test"; "b.test"].
Proof.
  intros page. eexists. split; [vm_compute; reflexivity|].
  match goal with
  | |- map domain (results ?s) ≡ₚ _ =>
      destruct (run_report
                  ["http://a.test"; EmptyString; "# comment"; "b.test"]
                  [Acquire 0; Acquire 1; Acquire 2;
                   Deliver 2 (Raises (mkExn "connect failed"));
                   Deliver 0 (Returns page); Exit 1; Exit 0;
                   Deliver 2 (Raises (mkExn "connect failed")); Exit 2;
                   Collect; Collect; Collect] s)
        as (_ & _ & _ & _ & _ & _ & Hfin & _); [vm_compute; reflexivity|]
  end.
  destruct Hfin as [Hp _]; [repeat constructor | exact Hp].
Defined.

(** * Further properties of the code *)

#[local] Arguments String.append !s1 s2 : simpl nomatch.

Lemma str_app_assoc a b c : (a +:+ b) +:+ c = a +:+ b +:+ c.
Proof. induction a; simpl; congruence. Qed.

Lemma str_app_nil_r s : s +:+ EmptyString = s.
Proof. induction s; simpl; congruence. Qed.

Lemma lower_is_empty s : is_empty (lower s) = is_empty s.
Proof. now destruct s. Qed.

Lemma occurs_in_app m s a b : occurs_in m s -> occurs_in m (a +:+ s +:+ b).
Proof.
  intros (p & x & q & -> & Hx). exists (a +:+ p), x, (q +:+ b).
  split; [|exact Hx]. now rewrite !str_app_assoc.
Qed.

Lemma contains_trans a b s :
  contains a b = true -> contains b s = true -> contains a s = true.
Proof.
  rewrite !contains_app. intros (p & q & ->) (u & v & ->).
  exists (u +:+ p), (q +:+ v). now rewrite !str_app_assoc.
Qed.

(** ** Candidate builder *)

(** X1. The builder never raises, whatever the input: it returns at most
    two candidates, and none exactly when the input is blank. *)
Theorem build_candidate_urls_total (raw : string) :
  exists urls,
    build_candidate_urls raw = Returns urls
    /\ length urls <= 2
    /\ (urls = [] <-> strip raw = EmptyString).
Proof.
  destruct (is_empty (strip raw)) eqn:E.
  - apply is_empty_true in E. exists []. rewrite (build_empty _ E).
    split; [reflexivity|]. split; [simpl; lia|]. now split.
  - assert (Hne : strip raw <> EmptyString) by (intros H; now rewrite H in E).
    destruct (build_total raw) as [urls Hu]. exists urls.
    split; [exact Hu|].
    destruct (build_length _ _ Hne Hu) as [Hl|Hl]; rewrite Hl;
      (split; [lia|]); split; try contradiction; intros ->; discriminate Hl.
Qed.

Lemma used_scheme_http u :
  startswith "http://" (lower u) = true -> used_scheme_of u = "http".
Proof.
  intros H. unfold used_scheme_of.
  destruct (startswith "https://" (lower u)) eqn:E; [|reflexivity].
  apply http_not_https in E. congruence.
Qed.

Lemma used_scheme_https u :
  startswith "https://" (lower u) = true -> used_scheme_of u = "https".
Proof. intros H. unfold used_scheme_of. now rewrite H. Qed.

Lemma startswith_literal p s :
  lower p = p -> startswith p (lower (p +:+ s)) = true.
Proof.
  intros H. unfold startswith. rewrite lower_app, H. apply prefix_app. eauto.
Qed.

Lemma Returns_inj {A} (a b : A) : Returns a = Returns b -> a = b.
Proof. congruence. Qed.

(** X2. The schemes are tried in a fixed order: the candidates are tagged
    with no scheme at all, with [http] alone, or with [https] then [http];
    each candidate begins, in any case, with the scheme it is tagged with,
    and the two candidates of a pair are different URLs. *)
Theorem build_candidate_urls_schemes (raw : string) (urls : list string) :
  build_candidate_urls raw = Returns urls ->
  (map used_scheme_of urls = [] \/ map used_scheme_of urls = ["http"]
   \/ map used_scheme_of urls = ["https"; "http"])
  /\ Forall (fun u => startswith (used_scheme_of u +:+ "://") (lower u) = true)
            urls
  /\ NoDup urls.
Proof.
  destruct (is_empty (strip raw)) eqn:E.
  { apply is_empty_true in E. rewrite (build_empty _ E). intros Hu.
    apply Returns_inj in Hu. subst urls.
    repeat split; [now left | constructor | constructor]. }
  assert (Hne : strip raw <> EmptyString) by (intros H; now rewrite H in E).
  destruct (startswith "http://" (lower (strip raw))) eqn:H1.
  { rewrite (build_http _ H1). intros Hu. apply Returns_inj in Hu. subst urls. cbn [map].
    rewrite (used_scheme_http _ H1). split; [auto|]. split.
    - repeat constructor. now rewrite (used_scheme_http _ H1).
    - apply NoDup_singleton. }
  assert (Hh : forall s, used_scheme_of ("http://" +:+ s) = "http").
  { intros s. apply used_scheme_http. now apply startswith_literal. }
  assert (Hs : forall s, used_scheme_of ("https://" +:+ s) = "https").
  { intros s. apply used_scheme_https. now apply startswith_literal. }
  destruct (startswith "https://" (lower (strip raw))) eqn:H2.
  - rewrite (build_https _ H2). intros Hu. apply Returns_inj in Hu. subst urls. cbn [map].
    rewrite (used_scheme_https _ H2), Hh. split; [auto|]. split.
    + repeat constructor;
        [now rewrite (used_scheme_https _ H2)
        |rewrite Hh; now apply startswith_literal].
    + apply NoDup_cons. split; [|apply NoDup_singleton].
      intros Hin. apply list_elem_of_singleton in Hin.
      pose proof (used_scheme_https _ H2) as Hu. rewrite Hin, Hh in Hu.
      discriminate Hu.
  - rewrite (build_bare _ Hne H1 H2). intros Hu. apply Returns_inj in Hu. subst urls. cbn [map].
    rewrite Hs, Hh. split; [auto|]. split.
    + repeat constructor; rewrite ?Hs, ?Hh; now apply startswith_literal.
    + apply NoDup_cons. split; [|apply NoDup_singleton].
      intros Hin. apply list_elem_of_singleton in Hin. discriminate Hin.
Qed.

Lemma build_candidate_urls_schemes_witness :
  map used_scheme_of ["HTTPS://A.test/x"; "http://A.test/x"] = ["https"; "http"]
  /\ NoDup ["HTTPS://A.test/x"; "http://A.test/x"].
Proof.
  destruct (build_candidate_urls_schemes
              " HTTPS://A.test/x" ["HTTPS://A.test/x"; "http://A.test/x"]
              eq_refl) as ([H|[H|H]] & _ & Hn); try discriminate H.
  now split.
Defined.

(** ** Content classifier *)

Lemma signature_whole markers s :
  ~ In EmptyString markers ->
  (if is_empty s then false else any_in markers (lower s)) = true ->
  forall a b,
    (if is_empty (a +:+ s +:+ b) then false
     else any_in markers (lower (a +:+ s +:+ b))) = true.
Proof.
  intros Hne H a b. apply (signature_test _ _ Hne).
  apply (signature_test _ _ Hne) in H as (m & Hm & Ho).
  exists m. split; [exact Hm|]. now apply occurs_in_app.
Qed.

(** X3. Each content predicate holds exactly when one of its markers
    occurs in the text in some mix of upper and lower case, so text added
    before or after a page that has a signature never removes it. *)
Theorem content_signatures (s a b : string) :
  (is_wordpress s = true <-> exists m, In m WP_MARKERS /\ occurs_in m s)
  /\ (is_parking_page s = true
      <-> exists m, In m PARKING_KEYWORDS /\ occurs_in m s)
  /\ (is_wordpress s = true -> is_wordpress (a +:+ s +:+ b) = true)
  /\ (is_parking_page s = true -> is_parking_page (a +:+ s +:+ b) = true).
Proof.
  assert (Hw : ~ In EmptyString WP_MARKERS) by (cbv; intuition discriminate).
  assert (Hp : ~ In EmptyString PARKING_KEYWORDS)
    by (cbv; intuition discriminate).
  split; [apply (signature_test _ _ Hw)|].
  split; [apply (signature_test _ _ Hp)|].
  split; intros H; [apply (signature_whole _ _ Hw H) | apply (signature_whole _ _ Hp H)].
Qed.

Lemma content_signatures_witness :
  is_parking_page "<p>Expired Domain</p>" = true
  /\ is_parking_page ("<html>" +:+ "<p>Expired Domain</p>" +:+ "</html>") = true.
Proof.
  assert (H : is_parking_page "<p>Expired Domain</p>" = true).
  { apply (proj2 (proj1 (proj2
      (content_signatures "<p>Expired Domain</p>" EmptyString EmptyString)))).
    exists "expired domain". split; [cbv; tauto|].
    exists "<p>", "Expired Domain", "</p>". now split. }
  split; [exact H|].
  exact (proj2 (proj2 (proj2
    (content_signatures "<p>Expired Domain</p>" "<html>" "</html>"))) H).
Defined.

(** X4. The content predicates do not look at letter case: two texts with
    the same lower-cased form get the same answers. *)
Theorem content_signatures_caseless (s s' : string) :
  lower s = lower s' ->
  is_wordpress s = is_wordpress s' /\ is_parking_page s = is_parking_page s'.
Proof.
  intros H. unfold is_wordpress, is_parking_page.
  rewrite <- (lower_is_empty s), <- (lower_is_empty s'), H. now split.
Qed.

Lemma content_signatures_caseless_witness :
  is_wordpress "/WP-JSON/" = is_wordpress "/wp-json/"
  /\ is_parking_page "/WP-JSON/" = is_parking_page "/wp-json/".
Proof. apply (content_signatures_caseless "/WP-JSON/" "/wp-json/"). reflexivity. Defined.

Lemma orb_subsumed (x y : bool) : (x = true -> y = true) -> x || y = y.
Proof. destruct x, y; intros H; try reflexivity. now specialize (H eq_refl). Qed.

(** X5. Two of the patterns never decide anything: a text with the fifth
    marker, the one that starts with [generator], also has the fourth, the
    one that starts with [content=], and a message with
    [name or service not known] also has [not known].  The
    WordPress test is decided by the first four markers, and an exception is
    taken for a DNS failure exactly when its lower-cased message contains
    [nxdomain] or [not known]. *)
Theorem subsumed_patterns (s : string) (exc : option Exn) :
  is_wordpress s
  = (if is_empty s then false
     else any_in ["wp-content"; "wp-includes"; "wp-json";
                  "content=" +:+ dquote +:+ "wordpress"] (lower s))
  /\ let msg := lower (str_exc exc) in
     (contains "nxdomain" msg || contains "not known" msg = true ->
      classify_transport_error exc
      = ("PARKED_ATAU_MUNGKIN_EXPIRED", None, None, "dns_error: " +:+ msg))
     /\ (contains "nxdomain" msg || contains "not known" msg = false ->
         exists notes,
           classify_transport_error exc
           = ("ERROR_TIDAK_BISA_DIBUKA", None, None, notes)).
Proof.
  split.
  - unfold is_wordpress. destruct (is_empty s); [reflexivity|].
    unfold any_in, WP_MARKERS. cbn [existsb]. rewrite !orb_false_r.
    do 3 f_equal. rewrite orb_comm. apply orb_subsumed.
    apply contains_trans. reflexivity.
  - cbv zeta. set (msg := lower (str_exc exc)).
    assert (Hdns : any_in DNS_PATTERNS msg
                   = contains "nxdomain" msg || contains "not known" msg).
    { unfold any_in, DNS_PATTERNS. cbn [existsb]. rewrite orb_false_r.
      apply orb_subsumed. intros H.
      rewrite (contains_trans "not known" "name or service not known" msg
                 eq_refl H).
      apply orb_true_r. }
    rewrite classify_transport_error_order. cbv zeta. fold msg. rewrite Hdns.
    split; intros ->; [reflexivity|].
    destruct (any_in TIMEOUT_PATTERNS msg), (any_in SSL_PATTERNS msg); eauto.
Qed.

Lemma subsumed_patterns_witness :
  classify_transport_error (Some (mkExn "[Errno -2] Name or service not known"))
  = ("PARKED_ATAU_MUNGKIN_EXPIRED", None, None,
     "dns_error: [errno -2] name or service not known").
Proof.
  apply (proj1 (proj2 (subsumed_patterns EmptyString
           (Some (mkExn "[Errno -2] Name or service not known"))))).
  reflexivity.
Defined.

(** ** Response classifier *)

Lemma below_range lo hi x :
  (x < lo)%Z -> (lo <=? x)%Z && (x <? hi)%Z = false.
Proof. intros. apply andb_false_iff. left. apply Z.leb_gt. lia. Qed.

Lemma classify_response_3xx resp used_scheme :
  (300 <= status_code resp < 400)%Z ->
  classify_response resp used_scheme
  = ("AKTIF_NON_WORDPRESS", Some (status_code resp), Some (url resp),
     "3xx_status (" +:+ used_scheme +:+ ")").
Proof.
  intros H. unfold classify_response.
  now rewrite above_range, (in_range 300 400) by lia.
Qed.

Lemma classify_response_other resp used_scheme :
  (status_code resp < 200 \/ 600 <= status_code resp)%Z ->
  classify_response resp used_scheme
  = ("ERROR_TIDAK_BISA_DIBUKA", Some (status_code resp), Some (url resp),
     "unexpected_status (" +:+ used_scheme +:+ ")").
Proof.
  intros [H|H]; unfold classify_response.
  - now rewrite !below_range by lia.
  - now rewrite !above_range by lia.
Qed.

Lemma status_ranges (c : Z) :
  (c < 200 \/ 600 <= c)%Z \/ (200 <= c < 300)%Z \/ (300 <= c < 400)%Z
  \/ (400 <= c < 600)%Z.
Proof. lia. Qed.

(** X6. Whatever the response, the classifier returns one of the four
    statuses, the status code and the URL of the response as they are, and
    a note that ends with the scheme in parentheses. *)
Theorem classify_response_shape (resp : Response) (used_scheme : string) :
  exists st label,
    classify_response resp used_scheme
    = (st, Some (status_code resp), Some (url resp),
       label +:+ " (" +:+ used_scheme +:+ ")")
    /\ In st TAXONOMY.
Proof.
  destruct (status_ranges (status_code resp)) as [H|[H|[H|H]]].
  - rewrite (classify_response_other _ _ H).
    exists "ERROR_TIDAK_BISA_DIBUKA", "unexpected_status".
    split; [reflexivity | cbv; tauto].
  - rewrite (classify_response_2xx _ _ H). cbv zeta.
    destruct (is_wordpress _); [|destruct (is_parking_page _)].
    + exists "AKTIF_WORDPRESS", "wp_markers_found".
      split; [reflexivity | cbv; tauto].
    + exists "PARKED_ATAU_MUNGKIN_EXPIRED", "parking_keywords_found".
      split; [reflexivity | cbv; tauto].
    + exists "AKTIF_NON_WORDPRESS", "no_wp_markers".
      split; [reflexivity | cbv; tauto].
  - rewrite (classify_response_3xx _ _ H).
    exists "AKTIF_NON_WORDPRESS", "3xx_status".
    split; [reflexivity | cbv; tauto].
  - rewrite (classify_response_4xx _ _ H). destruct (is_parking_page _).
    + exists "PARKED_ATAU_MUNGKIN_EXPIRED",
        ("http_" +:+ of_int (status_code resp) +:+ "_parking").
      split; [now rewrite !str_app_assoc | cbv; tauto].
    + exists "ERROR_TIDAK_BISA_DIBUKA", ("http_" +:+ of_int (status_code resp)).
      split; [now rewrite !str_app_assoc | cbv; tauto].
Qed.

Lemma is_wordpress_false body :
  is_wordpress (slice_to 4000 body) = false
  <-> ~ has_signature WP_MARKERS body.
Proof.
  rewrite <- is_wordpress_spec.
  destruct (is_wordpress (slice_to 4000 body)); split; congruence.
Qed.

(** X7. A response with a status in 200..299 and no WordPress marker is
    [PARKED_ATAU_MUNGKIN_EXPIRED] with the note [parking_keywords_found]
    when it has a parking keyword and [AKTIF_NON_WORDPRESS] with the note
    [no_wp_markers] when it has none. *)
Theorem classify_response_success_no_wordpress
    (resp : Response) (used_scheme : string) :
  (200 <= status_code resp <= 299)%Z ->
  ~ has_signature WP_MARKERS (body_of resp) ->
  (has_signature PARKING_KEYWORDS (body_of resp) ->
   classify_response resp used_scheme
   = ("PARKED_ATAU_MUNGKIN_EXPIRED", Some (status_code resp), Some (url resp),
      "parking_keywords_found (" +:+ used_scheme +:+ ")"))
  /\ (~ has_signature PARKING_KEYWORDS (body_of resp) ->
      classify_response resp used_scheme
      = ("AKTIF_NON_WORDPRESS", Some (status_code resp), Some (url resp),
         "no_wp_markers (" +:+ used_scheme +:+ ")")).
Proof.
  intros Hst Hwp. rewrite classify_response_2xx by lia. cbv zeta.
  apply is_wordpress_false in Hwp. rewrite Hwp. split; intros H.
  - apply is_parking_page_spec in H. now rewrite H.
  - apply is_parking_page_false in H. now rewrite H.
Qed.

Lemma classify_response_success_no_wordpress_witness :
  classify_response
    (mkResponse 200 "http://p.test/" (Returns "Domain for sale at SEDO")) "http"
  = ("PARKED_ATAU_MUNGKIN_EXPIRED", Some 200%Z, Some "http://p.test/",
     "parking_keywords_found (http)").
Proof.
  apply (classify_response_success_no_wordpress
           (mkResponse 200 "http://p.test/" (Returns "Domain for sale at SEDO"))
           "http").
  - simpl. lia.
  - apply is_wordpress_false. reflexivity.
  - apply is_parking_page_spec. reflexivity.
Defined.

(** X8. Outside 200..299 and 400..599 the body plays no part: a status in
    300..399 is [AKTIF_NON_WORDPRESS] with the note [3xx_status], and a
    status below 200 or from 600 on is [ERROR_TIDAK_BISA_DIBUKA] with the
    note [unexpected_status], WordPress markers or parking keywords in the
    body notwithstanding. *)
Theorem classify_response_body_ignored (resp : Response) (used_scheme : string) :
  ((300 <= status_code resp <= 399)%Z ->
   classify_response resp used_scheme
   = ("AKTIF_NON_WORDPRESS", Some (status_code resp), Some (url resp),
      "3xx_status (" +:+ used_scheme +:+ ")"))
  /\ ((status_code resp < 200 \/ 600 <= status_code resp)%Z ->
      classify_response resp used_scheme
      = ("ERROR_TIDAK_BISA_DIBUKA", Some (status_code resp), Some (url resp),
         "unexpected_status (" +:+ used_scheme +:+ ")")).
Proof.
  split; intros H; [apply classify_response_3xx; lia|].
  now apply classify_response_other.
Qed.

Lemma classify_response_body_ignored_witness :
  classify_response
    (mkResponse 304 "https://w.test/" (Returns "/wp-content/ sedo")) "https"
  = ("AKTIF_NON_WORDPRESS", Some 304%Z, Some "https://w.test/",
     "3xx_status (https)")
  /\ classify_response
       (mkResponse 999 "https://w.test/" (Returns "/wp-content/ sedo")) "https"
     = ("ERROR_TIDAK_BISA_DIBUKA", Some 999%Z, Some "https://w.test/",
        "unexpected_status (https)").
Proof.
  split.
  - apply (proj1 (classify_response_body_ignored
             (mkResponse 304 "https://w.test/" (Returns "/wp-content/ sedo"))
             "https")). simpl. lia.
  - apply (proj2 (classify_response_body_ignored
             (mkResponse 999 "https://w.test/" (Returns "/wp-content/ sedo"))
             "https")). simpl. lia.
Defined.

(** X9. Only the first 4000 characters of the body count: two responses
    with the same status and URL whose bodies agree on their first 4000
    characters are classified alike, so a marker further down is not
    seen. *)
Theorem classify_response_first_4000
    (code : Z) (u body body' used_scheme : string) :
  slice_to 4000 body = slice_to 4000 body' ->
  classify_response (mkResponse code u (Returns body)) used_scheme
  = classify_response (mkResponse code u (Returns body')) used_scheme.
Proof. intros H. unfold classify_response. cbn [text]. now rewrite H. Qed.

(** A WordPress path after 4000 characters of padding goes unnoticed. *)
Lemma classify_response_first_4000_witness :
  let pad := string_of_list_ascii (replicate 4000 "x"%char) in
  classify_response
    (mkResponse 200 "https://w.test/" (Returns (pad +:+ "/wp-content/"))) "https"
  = ("AKTIF_NON_WORDPRESS", Some 200%Z, Some "https://w.test/",
     "no_wp_markers (https)").
Proof.
  intros pad.
  rewrite (classify_response_first_4000 200 "https://w.test/"
             (pad +:+ "/wp-content/") pad "https");
    vm_compute; reflexivity.
Defined.

(** X10. Which status a response gets, read backwards: [AKTIF_WORDPRESS]
    only for a status in 200..299 with a WordPress marker;
    [PARKED_ATAU_MUNGKIN_EXPIRED] only with a parking keyword, behind a
    status in 400..599 or behind one in 200..299 without WordPress marker;
    [AKTIF_NON_WORDPRESS] for 300..399 and for 200..299 with neither
    signature; [ERROR_TIDAK_BISA_DIBUKA] for 400..599 without parking keyword
    and for every status outside 200..599. *)
Theorem classify_response_status (resp : Response) (used_scheme : string) :
  let c := status_code resp in
  let wp := has_signature WP_MARKERS (body_of resp) in
  let pk := has_signature PARKING_KEYWORDS (body_of resp) in
  let st := fst (fst (fst (classify_response resp used_scheme))) in
  (st = "AKTIF_WORDPRESS" <-> (200 <= c < 300)%Z /\ wp)
  /\ (st = "PARKED_ATAU_MUNGKIN_EXPIRED"
      <-> pk /\ (((200 <= c < 300)%Z /\ ~ wp) \/ (400 <= c < 600)%Z))
  /\ (st = "AKTIF_NON_WORDPRESS"
      <-> ((200 <= c < 300)%Z /\ ~ wp /\ ~ pk) \/ (300 <= c < 400)%Z)
  /\ (st = "ERROR_TIDAK_BISA_DIBUKA"
      <-> ((400 <= c < 600)%Z /\ ~ pk) \/ (c < 200)%Z \/ (600 <= c)%Z).
Proof.
  cbv zeta. rewrite <- is_wordpress_spec, <- is_parking_page_spec.
  destruct (status_ranges (status_code resp)) as [H|[H|[H|H]]].
  - rewrite (classify_response_other _ _ H). cbn [fst].
    repeat split; intros; try discriminate; try lia; intuition (try lia; try discriminate).
  - rewrite (classify_response_2xx _ _ H). cbv zeta.
    destruct (is_wordpress _), (is_parking_page _); cbn [fst];
      repeat split; intros; try discriminate; try lia;
      intuition (try lia; try discriminate; try congruence).
  - rewrite (classify_response_3xx _ _ H). cbn [fst].
    repeat split; intros; try discriminate; try lia;
      intuition (try lia; try discriminate).
  - rewrite (classify_response_4xx _ _ H).
    destruct (is_parking_page _); cbn [fst];
      repeat split; intros; try discriminate; try lia;
      intuition (try lia; try discriminate; try congruence).
Qed.

(** ** Transport-error classifier *)

(** X11. Without a DNS pattern, a message with a timeout pattern is
    [ERROR_TIDAK_BISA_DIBUKA] with the note [timeout: <message>], an ssl
    pattern in it notwithstanding; with neither a DNS nor a timeout pattern,
    a message with an ssl pattern gets the note [ssl_error: <message>].  The
    message in the note is lower-cased. *)
Theorem classify_transport_error_timeout_ssl (exc : Exn) :
  ~ matches DNS_PATTERNS (exc_str exc) ->
  (matches TIMEOUT_PATTERNS (exc_str exc) ->
   classify_transport_error (Some exc)
   = ("ERROR_TIDAK_BISA_DIBUKA", None, None,
      "timeout: " +:+ lower (exc_str exc)))
  /\ (~ matches TIMEOUT_PATTERNS (exc_str exc) ->
      matches SSL_PATTERNS (exc_str exc) ->
      classify_transport_error (Some exc)
      = ("ERROR_TIDAK_BISA_DIBUKA", None, None,
         "ssl_error: " +:+ lower (exc_str exc))).
Proof.
  intros Hd. apply matches_test_false in Hd.
  rewrite classify_transport_error_order. cbv zeta. cbn [str_exc]. rewrite Hd.
  split.
  - intros Ht. apply matches_test in Ht. now rewrite Ht.
  - intros Ht Hs. apply matches_test_false in Ht. apply matches_test in Hs.
    now rewrite Ht, Hs.
Qed.

Lemma classify_transport_error_timeout_ssl_witness :
  classify_transport_error (Some (mkExn "SSL handshake Timed Out"))
  = ("ERROR_TIDAK_BISA_DIBUKA", None, None, "timeout: ssl handshake timed out")
  /\ classify_transport_error (Some (mkExn "CERTIFICATE verify failed"))
     = ("ERROR_TIDAK_BISA_DIBUKA", None, None,
        "ssl_error: certificate verify failed").
Proof.
  split.
  - apply (classify_transport_error_timeout_ssl
             (mkExn "SSL handshake Timed Out"));
      [apply matches_test_false | apply matches_test]; reflexivity.
  - apply (classify_transport_error_timeout_ssl
             (mkExn "CERTIFICATE verify failed"));
      [apply matches_test_false | apply matches_test_false | apply matches_test];
      reflexivity.
Defined.

(** X12. Whatever it is given, [None] included, the transport-error
    classifier returns no status code and no URL, one of two statuses, the
    parked one exactly for a DNS pattern, and a note made of one of four
    fixed prefixes and the lower-cased message; two messages that differ
    only in letter case are classified alike. *)
Theorem classify_transport_error_shape (exc exc' : option Exn) :
  (exists st prefix,
     classify_transport_error exc
     = (st, None, None, prefix +:+ lower (str_exc exc))
     /\ In prefix ["dns_error: "; "timeout: "; "ssl_error: "; EmptyString]
     /\ (st = "PARKED_ATAU_MUNGKIN_EXPIRED" \/ st = "ERROR_TIDAK_BISA_DIBUKA")
     /\ (st = "PARKED_ATAU_MUNGKIN_EXPIRED"
         <-> matches DNS_PATTERNS (str_exc exc)))
  /\ (lower (str_exc exc) = lower (str_exc exc') ->
      classify_transport_error exc = classify_transport_error exc').
Proof.
  split.
  - rewrite classify_transport_error_order. cbv zeta.
    destruct (any_in DNS_PATTERNS (lower (str_exc exc))) eqn:Ed.
    { apply matches_test in Ed.
      exists "PARKED_ATAU_MUNGKIN_EXPIRED", "dns_error: ".
      split; [reflexivity|]. cbn [In]. intuition auto. }
    apply matches_test_false in Ed.
    assert (Hno : "ERROR_TIDAK_BISA_DIBUKA" = "PARKED_ATAU_MUNGKIN_EXPIRED"
                  <-> matches DNS_PATTERNS (str_exc exc))
      by (split; [discriminate | contradiction]).
    destruct (any_in TIMEOUT_PATTERNS _); [|destruct (any_in SSL_PATTERNS _)].
    + exists "ERROR_TIDAK_BISA_DIBUKA", "timeout: ".
      split; [reflexivity|]. cbn [In]. auto 6.
    + exists "ERROR_TIDAK_BISA_DIBUKA", "ssl_error: ".
      split; [reflexivity|]. cbn [In]. auto 6.
    + exists "ERROR_TIDAK_BISA_DIBUKA", EmptyString.
      split; [reflexivity|]. cbn [In]. auto 6.
  - intros H. rewrite !classify_transport_error_order. cbv zeta. now rewrite H.
Qed.

Lemma classify_transport_error_shape_witness :
  classify_transport_error (Some (mkExn "Connection RESET by peer"))
  = classify_transport_error (Some (mkExn "connection reset by peer")).
Proof.
  apply (proj2 (classify_transport_error_shape
                  (Some (mkExn "Connection RESET by peer"))
                  (Some (mkExn "connection reset by peer")))).
  reflexivity.
Defined.

(** ** Domain prober *)

Lemma candidates_length line : length (candidates line) <= 2.
Proof.
  unfold candidates. destruct (skipped line) eqn:Hs; [simpl; lia|].
  destruct (check_one_domain_probe _ Hs) as (urls & -> & [H|H] & _); lia.
Qed.

Lemma candidates_skipped line : skipped line = true -> candidates line = [].
Proof. unfold candidates. now intros ->. Qed.

(** A run of a coroutine that probes line [d]: requests for the first few
    candidates in order, no exception, and a result once the script has a
    reply for every candidate. *)
Lemma run_probing d urls c rs :
  probing d urls c ->
  (exists n, issued (run_coro c rs) = map get_request (take n urls))
  /\ (forall e, outcome (run_coro c rs) <> Some (Raises e))
  /\ (forall res, outcome (run_coro c rs) = Some (Returns res) ->
        yield (Returns res) = expected d)
  /\ (length urls <= length rs -> outcome (run_coro c rs) <> None).
Proof.
  revert urls rs. induction c as [res|e|req k IH]; intros urls rs Hp.
  - cbn [run_coro issued outcome]. split; [now exists 0|].
    split; [discriminate|]. split; [|discriminate].
    intros res' [= <-]. exact Hp.
  - contradiction.
  - destruct urls as [|u urls]; [contradiction|]. destruct Hp as [-> Hk].
    destruct rs as [|r rs]; cbn [run_coro issued outcome].
    + split; [now exists 1|]. split; [discriminate|].
      split; [discriminate|]. simpl. lia.
    + destruct (IH r urls rs (Hk r)) as ((n & Hn) & He & Hr & Hl).
      split; [exists (S n); simpl; now rewrite Hn|].
      split; [exact He|]. split; [exact Hr|]. simpl. intros H. apply Hl. lia.
Qed.

Lemma get_request_fields (urls : list string) :
  Forall (fun q => follow_redirects q = true /\ timeout q = 7%Z
                   /\ headers q = [("User-Agent", "Mozilla/5.0 (PBN-Checker)")])
         (map get_request urls).
Proof. induction urls; constructor; auto. Qed.

(** X13. One probe makes at most two requests, for the candidates of its
    line in their order, each with redirects followed, the 7 second timeout
    and the fixed user agent; it never raises, and with a reply to each of
    its at most two requests it returns. *)
Theorem check_one_domain_requests (line : string) (rs : list (Result Response)) :
  let r := run_coro (check_one_domain line) rs in
  (exists n, issued r = map get_request (take n (candidates line)))
  /\ length (issued r) <= 2
  /\ Forall (fun q => follow_redirects q = true /\ timeout q = 7%Z
                      /\ headers q
                         = [("User-Agent", "Mozilla/5.0 (PBN-Checker)")])
            (issued r)
  /\ (forall e, outcome r <> Some (Raises e))
  /\ (2 <= length rs -> exists res, outcome r = Some (Returns res)).
Proof.
  cbv zeta.
  destruct (run_probing line _ _ rs (probing_check line))
    as ((n & Hn) & He & _ & Hl).
  pose proof (candidates_length line) as Hc.
  split; [now exists n|]. split.
  { rewrite Hn, length_map, length_take. lia. }
  split; [rewrite Hn; apply get_request_fields|]. split; [exact He|].
  intros H2.
  destruct (outcome (run_coro (check_one_domain line) rs)) as [[res|e]|] eqn:E.
  - now exists res.
  - now destruct (He e).
  - destruct Hl; [lia | reflexivity].
Qed.

Lemma check_one_domain_requests_witness :
  exists res,
    outcome (run_coro (check_one_domain "a.test")
                      [Raises (mkExn "reset"); Raises (mkExn "reset")])
    = Some (Returns res).
Proof.
  apply (check_one_domain_requests "a.test"
           [Raises (mkExn "reset"); Raises (mkExn "reset")]).
  simpl. lia.
Defined.

(** X14. A skipped line costs nothing: the probe returns [None] at once,
    without a request and without reading a reply; and [None] is returned
    for skipped lines only. *)
Theorem check_one_domain_none (line : string) (rs : list (Result Response)) :
  (skipped line = true ->
   run_coro (check_one_domain line) rs = mkRun [] (Some (Returns None)) rs)
  /\ (outcome (run_coro (check_one_domain line) rs) = Some (Returns None) ->
      skipped line = true).
Proof.
  split.
  - intros Hs. now rewrite (check_one_domain_skipped _ Hs).
  - intros H.
    destruct (run_probing line _ _ rs (probing_check line)) as (_ & _ & Hr & _).
    specialize (Hr _ H). unfold expected in Hr.
    destruct (skipped line); [reflexivity | discriminate Hr].
Qed.

Lemma check_one_domain_none_witness :
  run_coro (check_one_domain "  # staging sites")
           [Returns (mkResponse 200 "https://a.test/" (Returns "hello"))]
  = mkRun [] (Some (Returns None))
          [Returns (mkResponse 200 "https://a.test/" (Returns "hello"))].
Proof.
  apply (check_one_domain_none "  # staging sites"). reflexivity.
Defined.

Lemma classify_response_fields resp used_scheme :
  exists st code u notes,
    classify_response resp used_scheme = (st, Some code, Some u, notes)
    /\ In st TAXONOMY.
Proof.
  unfold classify_response.
  repeat match goal with
         | |- context [if ?b then _ else _] => destruct b
         end;
    eexists _, _, _, _; (split; [reflexivity | cbv; tauto]).
Qed.

Lemma classify_transport_error_fields exc :
  exists st notes,
    classify_transport_error exc = (st, None, None, notes) /\ In st TAXONOMY.
Proof.
  unfold classify_transport_error.
  repeat match goal with
         | |- context [if ?b then _ else _] => destruct b
         end;
    eexists _, _; (split; [reflexivity | cbv; tauto]).
Qed.

Lemma sound_outcome_of line c :
  skipped line = false ->
  (exists st code u notes, c = (st, Some code, Some u, notes) /\ In st TAXONOMY)
  \/ (exists st notes, c = (st, None, None, notes) /\ In st TAXONOMY) ->
  sound_outcome (outcome_of (strip line) c).
Proof.
  intros Hs [(st & code & u & n & -> & Hin)|(st & n & -> & Hin)];
    unfold sound_outcome;
    cbn [outcome_of domain status http_status final_url];
    (split; [exact Hin|]); (split; [apply strip_idem|]);
    (split; [now rewrite skipped_strip|]); split; congruence.
Qed.

Lemma check_one_domain_sound line :
  returns_all sound_outcome (check_one_domain line).
Proof.
  destruct (skipped line) eqn:Hs.
  { now rewrite (check_one_domain_skipped _ Hs). }
  destruct (check_one_domain_probe _ Hs) as (urls & _ & _ & ->).
  generalize (@None Exn). induction urls as [|u urls IH]; intros le.
  - apply (sound_outcome_of _ _ Hs). right.
    apply classify_transport_error_fields.
  - intros [resp|e]; [|apply IH].
    apply (sound_outcome_of _ _ Hs). left. apply classify_response_fields.
Qed.

Lemma run_returns_all P c rs o :
  returns_all P c -> outcome (run_coro c rs) = Some (Returns (Some o)) -> P o.
Proof.
  revert rs. induction c as [[o'|]|e|req k IH]; intros rs Hp;
    cbn [run_coro outcome]; try discriminate; try contradiction.
  - now intros [= <-].
  - destruct rs as [|r rs]; [discriminate|]. apply IH, Hp.
Qed.

(** X15. An outcome, when there is one, carries the trimmed line as its
    domain and one of the four statuses, and has its status code and final
    URL both present (a response was classified) or both absent (every
    candidate failed). *)
Theorem check_one_domain_outcome
    (line : string) (rs : list (Result Response)) (o : Outcome) :
  outcome (run_coro (check_one_domain line) rs) = Some (Returns (Some o)) ->
  domain o = strip line
  /\ In (status o) TAXONOMY
  /\ (http_status o = None <-> final_url o = None)
  /\ skipped line = false.
Proof.
  intros H.
  destruct (run_returns_all _ _ _ _ (check_one_domain_sound line) H)
    as (Hst & _ & _ & Hn).
  destruct (run_probing line _ _ rs (probing_check line)) as (_ & _ & Hr & _).
  specialize (Hr _ H). unfold expected in Hr.
  destruct (skipped line); [discriminate Hr|]. injection Hr as Hd. auto.
Qed.

Lemma check_one_domain_outcome_witness :
  let o := mkOutcome "a.test" "ERROR_TIDAK_BISA_DIBUKA" None None "reset" in
  domain o = strip " a.test " /\ In (status o) TAXONOMY
  /\ (http_status o = None <-> final_url o = None)
  /\ skipped " a.test " = false.
Proof.
  intros o.
  apply (check_one_domain_outcome " a.test "
           [Raises (mkExn "reset"); Raises (mkExn "Reset")] o).
  vm_compute. reflexivity.
Defined.

Lemma http_line_not_skipped line :
  startswith "http://" (lower (strip line)) = true -> skipped line = false.
Proof.
  intros H. unfold skipped. rewrite (scheme_not_empty _ _ _ H). simpl.
  destruct (startswith "#" (strip line)) eqn:E; [|reflexivity].
  unfold startswith in *. apply prefix_app in E as [r Hr]. rewrite Hr in H.
  vm_compute in H. discriminate H.
Qed.

(** X16. A line given with [http://], in any case, is never upgraded: its
    only candidate is the trimmed line itself, so the probe makes at most
    one request, tagged [http], and an exception on it ends the probe with
    the transport-error classification. *)
Theorem check_one_domain_plain_http
    (line : string) (rs : list (Result Response)) :
  startswith "http://" (lower (strip line)) = true ->
  candidates line = [strip line]
  /\ used_scheme_of (strip line) = "http"
  /\ (issued (run_coro (check_one_domain line) rs) = []
      \/ issued (run_coro (check_one_domain line) rs)
         = [get_request (strip line)])
  /\ (forall e rest,
        rs = Raises e :: rest ->
        run_coro (check_one_domain line) rs
        = mkRun [get_request (strip line)]
                (Some (Returns (Some
                   (outcome_of (strip line)
                      (classify_transport_error (Some e))))))
                rest).
Proof.
  intros H. pose proof (http_line_not_skipped _ H) as Hs.
  assert (Hb : build_candidate_urls (strip line) = Returns [strip line]).
  { pose proof (build_http (strip line)) as B. rewrite strip_idem in B.
    exact (B H). }
  assert (Hc : candidates line = [strip line]).
  { unfold candidates. now rewrite Hs, Hb. }
  split; [exact Hc|]. split; [now apply used_scheme_http|]. split.
  - destruct (run_probing line _ _ rs (probing_check line)) as ((n & Hn) & _).
    rewrite Hn, Hc. destruct n as [|n]; [now left|right].
    simpl. now rewrite take_nil.
  - intros e rest ->. now rewrite (run_check_one_domain _ _ _ Hs Hb).
Qed.

Lemma check_one_domain_plain_http_witness :
  run_coro (check_one_domain "HTTP://Shop.test")
           [Raises (mkExn "connection refused");
            Returns (mkResponse 200 "https://shop.test/" (Returns "hello"))]
  = mkRun [get_request "HTTP://Shop.test"]
          (Some (Returns (Some
             (mkOutcome "HTTP://Shop.test" "ERROR_TIDAK_BISA_DIBUKA" None None
                        "connection refused"))))
          [Returns (mkResponse 200 "https://shop.test/" (Returns "hello"))].
Proof.
  destruct (check_one_domain_plain_http "HTTP://Shop.test"
              [Raises (mkExn "connection refused");
               Returns (mkResponse 200 "https://shop.test/" (Returns "hello"))]
              eq_refl) as (_ & _ & _ & H).
  exact (H _ _ eq_refl).
Defined.

(** ** Probe scheduler *)

Lemma read_domains_cons l f :
  read_domains (l :: f)
  = if is_empty (strip l) then read_domains f else strip l :: read_domains f.
Proof. unfold read_domains. simpl. now destruct (is_empty (strip l)). Qed.

(** X17. The list of domains [run] works on holds the non-blank lines in
    their order, trimmed: no entry is empty or has white space around it,
    reading the list again changes nothing, and comment lines are still in
    it, so that each gets a worker; the reported lines are those entries
    that do not start with the comment mark. *)
Theorem read_domains_trimmed (f : list string) :
  Forall (fun d => strip d = d /\ d <> EmptyString) (read_domains f)
  /\ read_domains (read_domains f) = read_domains f
  /\ length (tasks (run f)) = length (read_domains f)
  /\ length (read_domains f) <= length f
  /\ reported f
     = List.filter (fun d => negb (startswith "#" d)) (read_domains f).
Proof.
  split; [|split; [|split; [|split]]].
  - induction f as [|l f IH]; [constructor|]. rewrite read_domains_cons.
    destruct (is_empty (strip l)) eqn:E; [exact IH|]. constructor; [|exact IH].
    split; [apply strip_idem|]. intros H. now rewrite H in E.
  - induction f as [|l f IH]; [reflexivity|]. rewrite read_domains_cons.
    destruct (is_empty (strip l)) eqn:E; [exact IH|].
    rewrite read_domains_cons, strip_idem, E. now rewrite IH.
  - unfold run, init_sched. simpl. now rewrite length_map.
  - induction f as [|l f IH]; [reflexivity|]. rewrite read_domains_cons.
    destruct (is_empty (strip l)); simpl; lia.
  - unfold reported. induction f as [|l f IH]; [reflexivity|].
    rewrite read_domains_cons. simpl. unfold skipped at 1.
    destruct (is_empty (strip l)) eqn:E; simpl; [exact IH|].
    destruct (startswith "#" (strip l)); simpl; now rewrite IH.
Qed.

Lemma step_results_grow a s s' :
  step a s = Some s' -> exists more, results s' = results s ++ more.
Proof.
  intros H. apply step_Step in H.
  destruct H as [i d body reqs v _ _ _|i r d req k reqs _ _
                |i d res reqs _ _|i d e reqs _ _|r q _ _];
    try (exists []; simpl; now rewrite app_nil_r).
  destruct r as [[o|]|e]; [now exists [o] | |];
    exists []; simpl; now rewrite app_nil_r.
Qed.

(** X18. The result set only grows, at its end: an outcome that has been
    collected stays where it is, unchanged, in every later state of the
    run. *)
Theorem results_append_only (acts : list Action) (s s' : Sched) :
  run_actions acts s = Some s' ->
  exists more, results s' = results s ++ more.
Proof.
  revert s. induction acts as [|a acts IH]; intros s; simpl.
  - intros [= <-]. exists []. now rewrite app_nil_r.
  - destruct (step a s) as [s1|] eqn:E; [|discriminate]. intros H.
    destruct (step_results_grow _ _ _ E) as [m1 H1].
    destruct (IH _ H) as [m2 H2]. exists (m1 ++ m2).
    now rewrite H2, H1, app_assoc.
Qed.

Lemma results_append_only_witness :
  let page := mkResponse 200 "https://a.test/" (Returns "hello") in
  let acts := [Acquire 0; Deliver 0 (Returns page); Exit 0; Collect] in
  exists s' more,
    run_actions acts (run ["a.test"]) = Some s'
    /\ results s' = results (run ["a.test"]) ++ more.
Proof.
  intros page acts.
  destruct (run_actions acts (run ["a.test"])) as [s'|] eqn:E;
    [|vm_compute in E; discriminate E].
  destruct (results_append_only _ _ _ E) as [more H].
  exists s', more. now split.
Defined.

Lemma concat_carried_snoc q r :
  concat (map carried (q ++ [r])) = concat (map carried q) ++ carried r.
Proof. rewrite map_app, concat_app. simpl. now rewrite app_nil_r. Qed.

Lemma step_completion a s s' :
  step a s = Some s' ->
  results s' ++ concat (map carried (completed s'))
  = (results s ++ concat (map carried (completed s))) ++ step_log a s'.
Proof.
  intros H. apply step_Step in H.
  destruct H as [i d body reqs v _ Hi _|i r d req k reqs _ Hi
                |i d res reqs _ Hi|i d e reqs _ Hi|r q _ Hq];
    unfold step_log; simpl.
  - now rewrite app_nil_r.
  - now rewrite app_nil_r.
  - rewrite list_lookup_insert_eq by (eapply lookup_lt_Some; eauto).
    now rewrite concat_carried_snoc, app_assoc.
  - rewrite list_lookup_insert_eq by (eapply lookup_lt_Some; eauto).
    now rewrite concat_carried_snoc, app_assoc.
  - rewrite Hq, app_nil_r. destruct r as [[o|]|e]; simpl; try reflexivity.
    now rewrite <- app_assoc.
Qed.

Lemma exit_log_cons a acts s s' :
  step a s = Some s' -> exit_log (a :: acts) s = step_log a s' ++ exit_log acts s'.
Proof. intros H. cbn [exit_log]. now rewrite H. Qed.

Lemma run_completion acts s s' :
  run_actions acts s = Some s' ->
  results s' ++ concat (map carried (completed s'))
  = (results s ++ concat (map carried (completed s))) ++ exit_log acts s.
Proof.
  revert s. induction acts as [|a acts IH]; intros s.
  - simpl. intros [= <-]. now rewrite app_nil_r.
  - cbn [run_actions]. destruct (step a s) as [s1|] eqn:E; [|discriminate].
    intros H. rewrite (IH _ H), (step_completion _ _ _ E), (exit_log_cons _ _ _ _ E).
    now rewrite app_assoc.
Qed.

(** X19. The result set is in completion order: at any time the outcomes
    collected, followed by those waiting to be collected, are the outcomes
    of the workers in the order in which they left [async with sem]; once
    nothing waits, the result set is that list, whatever the order of the
    input lines. *)
Theorem results_in_completion_order
    (K : nat) (worker : string -> Coro (option Outcome))
    (domains : list string) (acts : list Action) (s : Sched) :
  run_actions acts (init_sched K worker domains) = Some s ->
  results s ++ concat (map carried (completed s))
  = exit_log acts (init_sched K worker domains)
  /\ (completed s = [] ->
      results s = exit_log acts (init_sched K worker domains)).
Proof.
  intros H. pose proof (run_completion _ _ _ H) as Hc. simpl in Hc.
  split; [exact Hc|]. intros Hq. rewrite Hq in Hc. simpl in Hc.
  now rewrite app_nil_r in Hc.
Qed.

(** The second line answers first and comes first in the result set. *)
Lemma results_in_completion_order_witness :
  let page := mkResponse 200 "https://x.test/" (Returns "hello") in
  exists s,
    run_actions [Acquire 0; Acquire 1; Deliver 1 (Returns page); Exit 1;
                 Deliver 0 (Returns page); Exit 0; Collect; Collect]
                (run ["a.test"; "b.test"]) = Some s
    /\ map domain (results s) = ["b.test"; "a.test"].
Proof.
  intros page. eexists. split; [vm_compute; reflexivity|].
  match goal with
  | |- map domain (results ?s) = _ =>
      destruct (results_in_completion_order 20 check_one_domain
                  (read_domains ["a.test"; "b.test"])
                  [Acquire 0; Acquire 1; Deliver 1 (Returns page); Exit 1;
                   Deliver 0 (Returns page); Exit 0; Collect; Collect] s)
        as [_ H]; [vm_compute; reflexivity|]
  end.
  rewrite H; reflexivity.
Defined.

(** X20. [run] is never ended by an exception of a probe: in every state
    of a run no worker has raised or is about to, every finished task holds
    a result, and the main loop has met no exception. *)
Theorem run_never_fails (f : list string) (acts : list Action) (s : Sched) :
  run_actions acts (run f) = Some s ->
  failed s = None
  /\ Forall (fun r => exists res, r = Returns res) (completed s)
  /\ Forall (fun w => forall e,
               phase w <> Finished (Raises e) /\ phase w <> Holding (Raise e)
               /\ phase w <> Waiting (Raise e)) (tasks s).
Proof.
  intros H.
  pose proof (run_inv_reach _ _ _ _
                (init_inv MAX_CONCURRENCY (read_domains f)) H) as Hi.
  split; [exact (inv_failed _ _ Hi)|]. split; [exact (inv_completed _ _ Hi)|].
  eapply Forall_impl; [exact (inv_workers _ _ Hi)|].
  intros [d ph reqs] (n & _ & Hp) e. simpl in *.
  destruct ph as [c|c|r]; repeat split; try discriminate;
    intros [= ->]; try contradiction.
  destruct Hp as [_ [res Hr]]. discriminate Hr.
Qed.

Lemma run_never_fails_witness :
  exists s,
    run_actions [Acquire 0; Deliver 0 (Raises (mkExn "tls alert"));
                 Deliver 0 (Raises (mkExn "reset")); Exit 0; Collect]
                (run ["a.test"]) = Some s
    /\ failed s = None
    /\ map status (results s) = ["ERROR_TIDAK_BISA_DIBUKA"].
Proof.
  eexists. split; [vm_compute; reflexivity|]. split; [|reflexivity].
  match goal with
  | |- failed ?s = None =>
      apply (run_never_fails ["a.test"]
               [Acquire 0; Deliver 0 (Raises (mkExn "tls alert"));
                Deliver 0 (Raises (mkExn "reset")); Exit 0; Collect] s)
  end.
  vm_compute. reflexivity.
Defined.

Lemma sum_list_le {A} (g h : A -> nat) (l : list A) :
  Forall (fun x => g x <= h x) l -> sum_list (map g l) <= sum_list (map h l).
Proof. induction 1 as [|x l Hx _ IH]; simpl; lia. Qed.

Lemma sum_list_double {A} (g : A -> nat) (l : list A) :
  sum_list (map (fun x => 2 * g x) l) = 2 * sum_list (map g l).
Proof. induction l as [|x l IH]; simpl in *; lia. Qed.

Lemma length_concat_expected (ds : list string) :
  length (concat (map expected ds))
  = sum_list (map (fun d => length (expected d)) ds).
Proof.
  induction ds as [|d ds IH]; [reflexivity|]. simpl.
  now rewrite length_app, IH.
Qed.

Lemma candidates_expected d : length (candidates d) <= 2 * length (expected d).
Proof.
  pose proof (candidates_length d). unfold expected.
  destruct (skipped d) eqn:E; [|simpl; lia].
  rewrite (candidates_skipped _ E). simpl. lia.
Qed.

(** X21. Along a whole run a worker sends at most two requests, all of
    them for candidates of its own line, and none at all for a comment
    line; in total at most twice as many requests are answered as there are
    reported lines. *)
Theorem run_requests (f : list string) (acts : list Action) (s : Sched) :
  run_actions acts (run f) = Some s ->
  Forall (fun w => length (sent w) <= 2
                   /\ (skipped (line w) = true -> sent w = [])
                   /\ Forall (fun q => In (req_url q) (candidates (line w)))
                             (sent w))
         (tasks s)
  /\ sum_list (map (fun w => length (sent w)) (tasks s))
     <= 2 * length (reported f).
Proof.
  intros H.
  pose proof (run_inv_reach _ _ _ _
                (init_inv MAX_CONCURRENCY (read_domains f)) H) as Hi.
  assert (Hw : Forall (fun w => exists n,
                         sent w = map get_request (take n (candidates (line w))))
                      (tasks s)).
  { eapply Forall_impl; [exact (inv_workers _ _ Hi)|].
    intros w (n & Hn & _). eauto. }
  split.
  - eapply Forall_impl; [exact Hw|]. intros w (n & Hn).
    pose proof (candidates_length (line w)) as Hc. split; [|split].
    + rewrite Hn, length_map, length_take. lia.
    + intros Hs. rewrite Hn, (candidates_skipped _ Hs), take_nil. reflexivity.
    + rewrite Hn. apply Forall_forall. intros q Hq.
      apply list_elem_of_fmap in Hq as (u & -> & Hu). simpl.
      apply list_elem_of_In. exact (subseteq_take n _ _ Hu).
  - rewrite <- expected_read_domains, <- (inv_lines _ _ Hi).
    rewrite length_concat_expected, map_map.
    transitivity (sum_list (map (fun w => 2 * length (expected (line w)))
                                (tasks s))).
    + apply sum_list_le. eapply Forall_impl; [exact Hw|]. intros w (n & Hn).
      pose proof (candidates_expected (line w)).
      rewrite Hn, length_map, length_take. lia.
    + now rewrite (sum_list_double (fun w => length (expected (line w)))).
Qed.

Lemma run_requests_witness :
  exists s,
    run_actions [Acquire 0; Exit 0; Acquire 1;
                 Deliver 1 (Raises (mkExn "reset"));
                 Deliver 1 (Raises (mkExn "reset")); Exit 1]
                (run ["# parked ones"; "a.test"]) = Some s
    /\ map (fun w => length (sent w)) (tasks s) = [0; 2]
    /\ sum_list (map (fun w => length (sent w)) (tasks s))
       <= 2 * length (reported ["# parked ones"; "a.test"]).
Proof.
  eexists. split; [vm_compute; reflexivity|]. split; [reflexivity|].
  match goal with
  | |- context [tasks ?s] =>
      apply (run_requests ["# parked ones"; "a.test"]
               [Acquire 0; Exit 0; Acquire 1;
                Deliver 1 (Raises (mkExn "reset"));
                Deliver 1 (Raises (mkExn "reset")); Exit 1] s)
  end.
  vm_compute. reflexivity.
Defined.

Lemma step_outcomes P a s s' :
  outcomes_all P s -> step a s = Some s' -> outcomes_all P s'.
Proof.
  intros (Ht & Hc & Hr) H. apply step_Step in H.
  destruct H as [i d body reqs v _ Hi _|i r d req k reqs _ Hi
                |i d res reqs _ Hi|i d e reqs _ Hi|r q _ Hq];
    try pose proof (Forall_lookup_1 _ _ _ _ Ht Hi) as Hw; simpl in *.
  - split; [|now split]. simpl. now apply Forall_insert.
  - split; [|now split]. simpl. apply Forall_insert; [exact Ht|]. apply Hw.
  - split; [|split]; simpl; auto.
    + apply Forall_insert; [exact Ht|]. now destruct res.
    + apply Forall_app. split; [exact Hc|]. constructor; [|constructor].
      now destruct res.
  - contradiction.
  - rewrite Hq in Hc. apply Forall_cons in Hc as [Hr0 Hc].
    destruct r as [[o|]|e]; [|now split|contradiction].
    split; [exact Ht|]. split; [exact Hc|]. simpl.
    apply Forall_app. split; [exact Hr|]. now constructor.
Qed.

Lemma run_outcomes P acts s s' :
  outcomes_all P s -> run_actions acts s = Some s' -> outcomes_all P s'.
Proof.
  revert s. induction acts as [|a acts IH]; intros s Hi; simpl.
  - now intros [= <-].
  - destruct (step a s) as [s1|] eqn:E; [|discriminate].
    apply IH. exact (step_outcomes _ _ _ _ Hi E).
Qed.

Lemma init_outcomes f : outcomes_all sound_outcome (run f).
Proof.
  split; [|split; constructor]. unfold run, init_sched. simpl.
  induction (read_domains f) as [|d ds IH]; constructor; [|exact IH].
  apply check_one_domain_sound.
Qed.

(** X22. Every outcome in the result set, at any time of a run, has one
    of the four statuses, a domain that is one of the reported lines, and
    its status code and final URL both present or both absent. *)
Theorem run_results_sound (f : list string) (acts : list Action) (s : Sched) :
  run_actions acts (run f) = Some s ->
  Forall (fun o => In (status o) TAXONOMY
                   /\ In (domain o) (reported f)
                   /\ (http_status o = None <-> final_url o = None))
         (results s).
Proof.
  intros H.
  destruct (run_outcomes _ _ _ _ (init_outcomes f) H) as (_ & _ & Hr).
  pose proof (run_inv_reach _ _ _ _
                (init_inv MAX_CONCURRENCY (read_domains f)) H) as Hi.
  pose proof (report_partial _ _ Hi) as Hsub.
  rewrite expected_read_domains in Hsub.
  apply Forall_forall. intros o Ho.
  destruct (proj1 (Forall_forall _ _) Hr o Ho) as (Hst & _ & _ & Hn).
  split; [exact Hst|]. split; [|exact Hn].
  apply list_elem_of_In. eapply elem_of_submseteq; [|exact Hsub].
  apply list_elem_of_fmap. eauto.
Qed.

Lemma run_results_sound_witness :
  let page := mkResponse 503 "http://a.test/" (Returns "renew it now") in
  exists s,
    run_actions [Acquire 0; Deliver 0 (Raises (mkExn "tls alert"));
                 Deliver 0 (Returns page); Exit 0; Collect]
                (run [" a.test "]) = Some s
    /\ Forall (fun o => In (status o) TAXONOMY
                        /\ In (domain o) (reported [" a.test "])
                        /\ (http_status o = None <-> final_url o = None))
              (results s).
Proof.
  intros page. eexists. split; [vm_compute; reflexivity|].
  match goal with
  | |- Forall _ (results ?s) =>
      apply (run_results_sound [" a.test "]
               [Acquire 0; Deliver 0 (Raises (mkExn "tls alert"));
                Deliver 0 (Returns page); Exit 0; Collect] s)
  end.
  vm_compute. reflexivity.
Defined.

(** ** The summary *)

Lemma count_element_get m x k :
  get_count (count_element m x) k
  = get_count m k + (if String.eqb x k then 1 else 0).
Proof.
  induction m as [|[k' n] m IH]; simpl.
  - destruct (String.eqb x k); lia.
  - destruct (String.eqb k' x) eqn:E; simpl.
    + apply String.eqb_eq in E. subst k'. destruct (String.eqb x k); lia.
    + destruct (String.eqb k' k) eqn:E'; [|exact IH].
      apply String.eqb_eq in E'. subst k'. rewrite String.eqb_sym, E. lia.
Qed.

Lemma count_element_keys m x k :
  In k (map fst (count_element m x)) <-> k = x \/ In k (map fst m).
Proof.
  induction m as [|[k' n] m IH]; simpl; [intuition auto|].
  destruct (String.eqb k' x) eqn:E; simpl.
  - apply String.eqb_eq in E. subst k'. intuition auto.
  - rewrite IH. intuition auto.
Qed.

Lemma count_element_nodup m x :
  List.NoDup (map fst m) -> List.NoDup (map fst (count_element m x)).
Proof.
  induction m as [|[k' n] m IH]; simpl; intros H.
  - constructor; [intros []|constructor].
  - inversion H as [|? ? Hn Hm]; subst.
    destruct (String.eqb k' x) eqn:E; simpl; [now constructor|].
    constructor; [|now apply IH]. rewrite count_element_keys.
    intros [->|Hin]; [|contradiction].
    now rewrite String.eqb_refl in E.
Qed.

Lemma count_element_sum m x :
  sum_list (map snd (count_element m x)) = S (sum_list (map snd m)).
Proof.
  induction m as [|[k' n] m IH]; simpl; [reflexivity|].
  destruct (String.eqb k' x); simpl; lia.
Qed.

Lemma count_element_pos m x :
  Forall (fun p => 0 < snd p) m ->
  Forall (fun p => 0 < snd p) (count_element m x).
Proof.
  induction 1 as [|[k' n] m Hp Hm IH]; simpl.
  - repeat constructor.
  - destruct (String.eqb k' x); constructor; simpl in *; auto; lia.
Qed.

Lemma fold_count m xs :
  List.NoDup (map fst m) -> Forall (fun p => 0 < snd p) m ->
  let c := fold_left count_element xs m in
  List.NoDup (map fst c)
  /\ Forall (fun p => 0 < snd p) c
  /\ sum_list (map snd c) = sum_list (map snd m) + length xs
  /\ (forall k, get_count c k = get_count m k + count_occ string_dec xs k)
  /\ (forall k, In k (map fst c) <-> In k (map fst m) \/ In k xs).
Proof.
  revert m. induction xs as [|x xs IH]; intros m Hn Hp; cbn [fold_left].
  - cbv zeta. simpl. split; [exact Hn|]. split; [exact Hp|].
    split; [lia|]. split; [intros k; lia|]. intuition auto.
  - destruct (IH (count_element m x) (count_element_nodup _ _ Hn)
                 (count_element_pos _ _ Hp)) as (H1 & H2 & H3 & H4 & H5).
    cbv zeta. split; [exact H1|]. split; [exact H2|]. split; [|split].
    + rewrite H3, count_element_sum. simpl. lia.
    + intros k. rewrite H4, count_element_get. simpl.
      destruct (string_dec x k) as [->|Hne].
      * rewrite String.eqb_refl. lia.
      * destruct (String.eqb x k) eqn:E; [|lia].
        apply String.eqb_eq in E. contradiction.
    + intros k. rewrite H5, count_element_keys. simpl. intuition auto.
Qed.

(** X23. The summary accounts for every result once: its keys are the
    statuses that occur, each once, the count of a status is the number of
    results with it and is never zero, and the counts add up to the number
    of results. *)
Theorem summary_counts (rs : list Outcome) :
  List.NoDup (map fst (summary rs))
  /\ (forall st, In st (map fst (summary rs)) <-> In st (map status rs))
  /\ (forall st,
        get_count (summary rs) st = count_occ string_dec (map status rs) st)
  /\ Forall (fun p => 0 < snd p) (summary rs)
  /\ sum_list (map snd (summary rs)) = length rs.
Proof.
  unfold summary, Counter.
  destruct (fold_count [] (map status rs) (List.NoDup_nil _) (List.Forall_nil _))
    as (H1 & H2 & H3 & H4 & H5).
  split; [exact H1|]. split; [|split; [exact H4|split; [exact H2|]]].
  - intros st. rewrite H5. simpl. intuition auto.
  - rewrite H3, length_map. reflexivity.
Qed.

(** X24. The summary of a run has at most four lines, one for each status
    of the taxonomy that occurs among the results, and their counts add up
    to the number of outcomes collected. *)
Theorem summary_of_run (f : list string) (acts : list Action) (s : Sched) :
  run_actions acts (run f) = Some s ->
  Forall (fun p => In (fst p) TAXONOMY /\ 0 < snd p) (summary (results s))
  /\ length (summary (results s)) <= 4
  /\ sum_list (map snd (summary (results s))) = length (results s).
Proof.
  intros H.
  destruct (run_outcomes _ _ _ _ (init_outcomes f) H) as (_ & _ & Hr).
  unfold summary, Counter.
  destruct (fold_count [] (map status (results s))
              (List.NoDup_nil _) (List.Forall_nil _))
    as (H1 & H2 & H3 & _ & H5).
  set (c := fold_left count_element (map status (results s)) []) in *.
  assert (Hk : forall k, In k (map fst c) -> In k TAXONOMY).
  { intros k Hin. apply H5 in Hin as [[]|Hin].
    apply in_map_iff in Hin as (o & <- & Ho). apply list_elem_of_In in Ho.
    exact (proj1 (proj1 (Forall_forall _ _) Hr o Ho)). }
  split; [|split].
  - apply Forall_forall. intros p Hp. split.
    + apply Hk, in_map, list_elem_of_In, Hp.
    + exact (proj1 (Forall_forall _ _) H2 p Hp).
  - rewrite <- (length_map fst).
    exact (List.NoDup_incl_length H1 Hk).
  - rewrite H3, length_map. reflexivity.
Qed.

Lemma summary_of_run_witness :
  let page := mkResponse 200 "https://a.test/" (Returns "/wp-includes/") in
  exists s,
    run_actions [Acquire 0; Acquire 1; Deliver 0 (Returns page);
                 Deliver 1 (Returns page); Exit 0; Exit 1; Collect; Collect]
                (run ["a.test"; "b.test"]) = Some s
    /\ summary (results s) = [("AKTIF_WORDPRESS", 2)]
    /\ sum_list (map snd (summary (results s))) = length (results s).
Proof.
  intros page. eexists. split; [vm_compute; reflexivity|].
  split; [reflexivity|].
  match goal with
  | |- context [results ?s] =>
      apply (summary_of_run ["a.test"; "b.test"]
               [Acquire 0; Acquire 1; Deliver 0 (Returns page);
                Deliver 1 (Returns page); Exit 0; Exit 1; Collect; Collect] s)
  end.
  vm_compute. reflexivity.
Defined.
